(** * crowd.dev integration pipeline: queue library, run repository and
      stream service.

    Shallow embedding of
    - [services/libs/sqs/src/queue.ts]
      ([SqsQueueReceiver], [SqsQueueSender]),
    - [services/apps/integration_run_worker/src/repo/integrationRun.repo.ts]
      ([IntegrationRunRepository]),
    - [services/apps/integration_stream_worker/src/service/integrationStreamService.ts]
      ([IntegrationStreamService]),
    followed by the properties of the pipeline that are checked on them.

    Conventions.  A [Promise<A>] that is awaited at once is a computation in
    the state-and-exception monad [M A] over the [World] (database tables,
    the messages handed to SQS, the wall clock and the UUID generator).
    A rejected promise is [Throw].  Timestamps are milliseconds since the
    epoch, as [Date.getTime()] returns them. *)

From Stdlib Require Import ZArith Lia List Bool Ascii String.
From stdpp Require Import base option list gmap strings pretty.

#[local] Set Warnings "-register-all".

Local Open Scope string_scope.
Local Open Scope list_scope.
Local Open Scope Z_scope.

(** ** JSON values *)

(** The payloads of the pipeline ([data], [settings], [metadata]) are JSON
    documents.  An object is a finite map on its keys, which is also what
    a [jsonb] column keeps of it.  Numbers are the integers. *)
Inductive Json : Type :=
  | JNull
  | JBool (b : bool)
  | JNumber (n : Z)
  | JString (s : string)
  | JArray (l : list Json)
  | JObject (m : gmap string Json).

(** PostgreSQL's [jsonb || jsonb]: two objects give the union of their keys
    and the right operand wins on a common key; two arrays are appended;
    in every other case an operand that is not an array is first wrapped
    into a one-element array. *)
Definition jsonb_concat (a b : Json) : Json :=
  match a, b with
  | JObject m1, JObject m2 => JObject (m2 ∪ m1)
  | JArray l1, JArray l2 => JArray (l1 ++ l2)
  | JArray l1, _ => JArray (l1 ++ [b])
  | _, JArray l2 => JArray (a :: l2)
  | _, _ => JArray [a; b]
  end.

(** A nullable [jsonb] column: [NULL || x] is [NULL]. *)
Definition sql_jsonb_concat (a : option Json) (b : Json) : option Json :=
  match a with
  | Some x => Some (jsonb_concat x b)
  | None => None
  end.

(** ** Errors and results *)

(** What a [catch (err)] can see: [err instanceof RateLimitError], with
    its [rateLimitResetSeconds], or any other error. *)
Inductive Err : Type :=
  | RateLimitError (rateLimitResetSeconds : Z)
  | Error (message : string).

Definition isRateLimitError (e : Err) : bool :=
  match e with
  | RateLimitError _ => true
  | Error _ => false
  end.

Inductive Result (A : Type) : Type :=
  | Ok (a : A)
  | Throw (e : Err).
Arguments Ok {A} a.
Arguments Throw {A} e.

(** ** Enumerations of [@crowd/types] *)

Inductive IntegrationRunState : Type :=
  | RUN_PENDING | RUN_PROCESSING | RUN_DELAYED | RUN_ERROR | RUN_PROCESSED.

Inductive IntegrationStreamState : Type :=
  | STREAM_PENDING | STREAM_PROCESSING | STREAM_DELAYED
  | STREAM_ERROR | STREAM_PROCESSED.

Inductive IntegrationStreamType : Type :=
  | ROOT | CHILD.

Inductive IntegrationDataState : Type :=
  | DATA_PENDING | DATA_PROCESSING | DATA_ERROR | DATA_PROCESSED.

Definition run_state_eqb (a b : IntegrationRunState) : bool :=
  match a, b with
  | RUN_PENDING, RUN_PENDING | RUN_PROCESSING, RUN_PROCESSING
  | RUN_DELAYED, RUN_DELAYED | RUN_ERROR, RUN_ERROR
  | RUN_PROCESSED, RUN_PROCESSED => true
  | _, _ => false
  end.

(** The object literal given to [triggerRunError] and [triggerStreamError]
    as [metadata], before [JSON.stringify]. *)
Inductive Metadata : Type :=
  | MdUndefined
  | MdActualState (actualState : IntegrationRunState)
  | MdType (type : string)
  | MdError (error : Err)
  | MdRetries (retries maxRetries : Z)
  | MdJson (j : Json).

(** The structured error [{ location, message, metadata }]. *)
Record ErrorInfo : Type := {
  location : string;
  message : string;
  metadata : Metadata;
}.

(** ** Tables *)

(** A row of [integration.runs]. *)
Record Run : Type := {
  run_id : string;
  run_tenantId : string;
  run_integrationId : string;
  run_microserviceId : option string;
  run_onboarding : bool;
  run_state : IntegrationRunState;
  run_delayedUntil : option Z;
  run_processedAt : option Z;
  run_error : option ErrorInfo;
  run_updatedAt : Z;
}.

(** A row of [integration."runStreams"]. *)
Record Stream : Type := {
  stream_id : string;
  stream_runId : string;
  stream_parentId : option string;
  stream_state : IntegrationStreamState;
  stream_identifier : string;
  stream_type : option IntegrationStreamType;
  stream_data : option Json;
  stream_tenantId : string;
  stream_integrationId : string;
  stream_microserviceId : option string;
  stream_delayedUntil : option Z;
  stream_processedAt : option Z;
  stream_retries : Z;
  stream_error : option ErrorInfo;
  stream_updatedAt : Z;
}.

(** A row of the table of produced data. *)
Record Data : Type := {
  data_id : string;
  data_streamId : string;
  data_runId : string;
  data_tenantId : string;
  data_data : Json;
  data_state : IntegrationDataState;
}.

(** A row of [integrations]. *)
Record Integration : Type := {
  int_id : string;
  int_platform : string;
  int_identifier : option string;
  int_status : string;
  int_settings : option Json;
  int_deletedAt : option Z;
  int_updatedAt : Z;
}.

(** ** Queue messages and the request given to SQS *)

Inductive IQueueMessage : Type :=
  | ProcessRun (runId : string)
  | ProcessStream (streamId : string)
  | ProcessData (dataId : string).

Record SendMessageRequest : Type := {
  QueueUrl : string;
  MessageGroupId : string;
  MessageDeduplicationId : option string;
  MessageBody : string;
}.

(** ** The world *)

Record World : Type := {
  runs : list Run;
  runStreams : list Stream;
  streamData : list Data;
  integrations : list Integration;
  (** every request accepted by SQS, oldest first *)
  sqs : list SendMessageRequest;
  (** [new Date().getTime()] and SQL [now()] *)
  clock : Z;
  (** how many UUIDs have been generated *)
  uuidSeq : N;
}.

Definition set_runs (f : list Run → list Run) (w : World) : World :=
  {| runs := f (runs w); runStreams := runStreams w;
     streamData := streamData w; integrations := integrations w;
     sqs := sqs w; clock := clock w; uuidSeq := uuidSeq w |}.

Definition set_runStreams (f : list Stream → list Stream) (w : World) : World :=
  {| runs := runs w; runStreams := f (runStreams w);
     streamData := streamData w; integrations := integrations w;
     sqs := sqs w; clock := clock w; uuidSeq := uuidSeq w |}.

Definition set_streamData (f : list Data → list Data) (w : World) : World :=
  {| runs := runs w; runStreams := runStreams w;
     streamData := f (streamData w); integrations := integrations w;
     sqs := sqs w; clock := clock w; uuidSeq := uuidSeq w |}.

Definition set_integrations (f : list Integration → list Integration)
    (w : World) : World :=
  {| runs := runs w; runStreams := runStreams w;
     streamData := streamData w; integrations := f (integrations w);
     sqs := sqs w; clock := clock w; uuidSeq := uuidSeq w |}.

Definition set_sqs (f : list SendMessageRequest → list SendMessageRequest)
    (w : World) : World :=
  {| runs := runs w; runStreams := runStreams w;
     streamData := streamData w; integrations := integrations w;
     sqs := f (sqs w); clock := clock w; uuidSeq := uuidSeq w |}.

Definition set_clock (f : Z → Z) (w : World) : World :=
  {| runs := runs w; runStreams := runStreams w;
     streamData := streamData w; integrations := integrations w;
     sqs := sqs w; clock := f (clock w); uuidSeq := uuidSeq w |}.

Definition set_uuidSeq (f : N → N) (w : World) : World :=
  {| runs := runs w; runStreams := runStreams w;
     streamData := streamData w; integrations := integrations w;
     sqs := sqs w; clock := clock w; uuidSeq := f (uuidSeq w) |}.

(** ** The monad of awaited promises *)

Definition M (A : Type) : Type := World → World * Result A.

Definition ret {A} (a : A) : M A := λ w, (w, Ok a).

Definition throw {A} (e : Err) : M A := λ w, (w, Throw e).

Definition bind {A B} (m : M A) (k : A → M B) : M B :=
  λ w, match m w with
       | (w', Ok a) => k a w'
       | (w', Throw e) => (w', Throw e)
       end.

(** [try { m } catch (err) { h err }] *)
Definition try_catch {A} (m : M A) (h : Err → M A) : M A :=
  λ w, match m w with
       | (w', Ok a) => (w', Ok a)
       | (w', Throw e) => h e w'
       end.

Definition get : M World := λ w, (w, Ok w).

Definition modify (f : World → World) : M unit := λ w, (f w, Ok tt).

Declare Scope promise_scope.
Delimit Scope promise_scope with promise.
Notation "'await' x ← m ;; k" := (bind m (λ x, k))
  (at level 10, x name, m at level 99, k at level 200) : promise_scope.
Local Open Scope promise_scope.

(** [new Date()] *)
Definition newDate : M Z := λ w, (w, Ok (clock w)).

(** Modelled from the spec: [addSeconds] of [@crowd/common] is not among
    the sources; section 4.3 uses it as "now + seconds".  On millisecond
    timestamps that is [date + 1000 * seconds]. *)
Definition addSeconds (date : Z) (seconds : Z) : Z := date + 1000 * seconds.

(** Modelled from the spec: [generateUUIDv1] of [@crowd/common] is not among
    the sources; the data model calls an id "opaque unique".  The n-th
    identifier generated is the decimal numeral of n behind a fixed prefix,
    so that two identifiers generated at different times differ. *)
Definition uuid_of (n : N) : string := "uuid-" +:+ pretty n.

Definition generateUUIDv1 : M string :=
  λ w, (set_uuidSeq N.succ w, Ok (uuid_of (uuidSeq w))).

(** * [services/libs/sqs/src/queue.ts] *)

Inductive SqsQueueType : Type :=
  | STANDARD | FIFO.

Record ISqsQueueConfig : Type := {
  name : string;
  type : SqsQueueType;
}.

(** [SqsQueueBase]: the configuration and the URL that [init()] stores. *)
Record SqsQueueBase : Type := {
  queueConf : ISqsQueueConfig;
  queueUrl : option string;
}.

Definition isFifo (q : SqsQueueBase) : bool :=
  match type (queueConf q) with
  | FIFO => true
  | STANDARD => false
  end.

Definition isInitialized (q : SqsQueueBase) : bool :=
  match queueUrl q with
  | Some _ => true
  | None => false
  end.

Definition getQueueUrl (q : SqsQueueBase) : M string :=
  match queueUrl q with
  | Some url => ret url
  | None => throw (Error "Queue URL not set - please call init() first!")
  end.

Module SqsQueueSender.

Definition dquote : string := String "034"%char EmptyString.

Definition field (key value : string) : string :=
  dquote +:+ key +:+ dquote +:+ ":" +:+ dquote +:+ value +:+ dquote.

(** [JSON.stringify(message)] on the three messages of the pipeline
    (section 6 gives their fields). *)
Definition JSON_stringify (message : IQueueMessage) : string :=
  match message with
  | ProcessRun runId =>
      "{" +:+ field "type" "process_run" +:+ ","
          +:+ field "runId" runId +:+ "}"
  | ProcessStream streamId =>
      "{" +:+ field "type" "process_stream" +:+ ","
          +:+ field "streamId" streamId +:+ "}"
  | ProcessData dataId =>
      "{" +:+ field "type" "process_data" +:+ ","
          +:+ field "dataId" dataId +:+ "}"
  end.

(** The template literal [`${groupId}-${new Date().getTime()}`]. *)
Definition deduplicationId (groupId : string) (time : Z) : string :=
  groupId +:+ "-" +:+ pretty time.

(** The [params] object of [sendMessage], given what [getQueueUrl()] and
    [new Date().getTime()] returned. *)
Definition sendMessageParams (q : SqsQueueBase) (url : string) (time : Z)
    (groupId : string) (message : IQueueMessage) : SendMessageRequest :=
  {| QueueUrl := url;
     MessageGroupId := groupId;
     MessageDeduplicationId :=
       if isFifo q then Some (deduplicationId groupId time) else None;
     MessageBody := JSON_stringify message |}.

(** Modelled from the spec: [sendMessage] of [./client] is not among the
    sources; section 4.1: "send(groupId, message) enqueues message".  The
    request is handed to SQS, which keeps it. *)
Definition client_sendMessage (params : SendMessageRequest) : M unit :=
  modify (set_sqs (λ l, l ++ [params])).

Definition sendMessage (q : SqsQueueBase) (groupId : string)
    (message : IQueueMessage) : M unit :=
  await url ← getQueueUrl q ;;
  await time ← newDate ;;
  client_sendMessage (sendMessageParams q url time groupId message).

End SqsQueueSender.

Module SqsQueueReceiver.

Record SqsMessage : Type := {
  MessageId : string;
  ReceiptHandle : string;
  Body : string;
}.

(** Where the promise chain
    [processMessage(..).then(async () => { await deleteMessage(..);
    removeJob() }).catch(() => removeJob())] of one message stands. *)
Inductive JobPhase : Type :=
  | Processing   (** [processMessage] is pending *)
  | Deleting     (** the [then] callback awaits [deleteMessage] *)
  | Settled.     (** the chain has run to its end *)

Record Job : Type := {
  job_message : SqsMessage;
  job_phase : JobPhase;
  (** how [processMessage] settled: [Some true] resolved, [Some false]
      rejected, [None] still pending *)
  job_processed : option bool;
  (** calls of [deleteMessage(message.ReceiptHandle)] by this chain *)
  job_deleteCalls : nat;
  (** calls of [removeJob()] made by this chain *)
  job_removeCalls : nat;
}.

(** Where [start()] stands. *)
Inductive LoopPc : Type :=
  | AtLoopHead         (** about to test [while (this.started)] *)
  | AwaitingReceive    (** inside [await this.receiveMessage()] *)
  | AwaitingTimeout    (** inside [await timeout(1000)] *)
  | Returned           (** the [while] was left, [start()] resolved *)
  | Rejected (jobAdded : bool).
    (** [start()] rejected: [receiveMessage] did, or [JSON.parse] threw
        (then [addJob()] had run and no chain was built) *)

Record Receiver : Type := {
  processingMessages : Z;
  started : bool;
  pc : LoopPc;
  jobs : list Job;
  (** the receipt handles given to [deleteMessage], oldest first *)
  deletedReceipts : list string;
}.

Section Loop.

Variable maxConcurrentMessageProcessing : Z.
(** [JSON.parse]: [None] when it throws a [SyntaxError]. *)
Variable JSON_parse : string → option IQueueMessage.

Definition isAvailable (r : Receiver) : bool :=
  processingMessages r <? maxConcurrentMessageProcessing.

Definition addJob (r : Receiver) : Receiver :=
  {| processingMessages := processingMessages r + 1;
     started := started r; pc := pc r; jobs := jobs r;
     deletedReceipts := deletedReceipts r |}.

Definition removeJob (r : Receiver) : Receiver :=
  {| processingMessages := processingMessages r - 1;
     started := started r; pc := pc r; jobs := jobs r;
     deletedReceipts := deletedReceipts r |}.

Definition stop (r : Receiver) : Receiver :=
  {| processingMessages := processingMessages r;
     started := false; pc := pc r; jobs := jobs r;
     deletedReceipts := deletedReceipts r |}.

(** [this.deleteMessage(receiptHandle)] is called. *)
Definition deleteMessage (receiptHandle : string) (r : Receiver)
    : Receiver :=
  {| processingMessages := processingMessages r;
     started := started r; pc := pc r; jobs := jobs r;
     deletedReceipts := deletedReceipts r ++ [receiptHandle] |}.

Definition set_pc (p : LoopPc) (r : Receiver) : Receiver :=
  {| processingMessages := processingMessages r;
     started := started r; pc := p; jobs := jobs r;
     deletedReceipts := deletedReceipts r |}.

Definition set_job (i : nat) (j : Job) (r : Receiver) : Receiver :=
  {| processingMessages := processingMessages r;
     started := started r; pc := pc r; jobs := <[i:=j]> (jobs r);
     deletedReceipts := deletedReceipts r |}.

Definition push_job (j : Job) (r : Receiver) : Receiver :=
  {| processingMessages := processingMessages r;
     started := started r; pc := pc r; jobs := jobs r ++ [j];
     deletedReceipts := deletedReceipts r |}.

(** [start()] after [await this.init()] and [this.started = true]. *)
Definition start : Receiver :=
  {| processingMessages := 0; started := true; pc := AtLoopHead;
     jobs := []; deletedReceipts := [] |}.

(** What the event loop of the process runs next. *)
Inductive Event : Type :=
  | LoopHead
  | ReceiveResolved (message : option SqsMessage)
  | ReceiveRejected
  | TimeoutElapsed
  | ProcessResolved (job : nat)
  | ProcessRejected (job : nat)
  | DeleteResolved (job : nat)
  | DeleteRejected (job : nat)
  | StopCalled.

Definition newJob (message : SqsMessage) : Job :=
  {| job_message := message; job_phase := Processing;
     job_processed := None; job_deleteCalls := 0; job_removeCalls := 0 |}.

(** [processMessage] resolved: the [then] callback starts and calls
    [deleteMessage(message.ReceiptHandle)]. *)
Definition onProcessResolved (j : Job) : Job :=
  {| job_message := job_message j; job_phase := Deleting;
     job_processed := Some true;
     job_deleteCalls := S (job_deleteCalls j);
     job_removeCalls := job_removeCalls j |}.

(** [processMessage] rejected: [then] is skipped, the [catch] callback
    calls [removeJob()]. *)
Definition onProcessRejected (j : Job) : Job :=
  {| job_message := job_message j; job_phase := Settled;
     job_processed := Some false;
     job_deleteCalls := job_deleteCalls j;
     job_removeCalls := S (job_removeCalls j) |}.

(** [deleteMessage] settled.  Resolved: the [then] callback goes on to
    [removeJob()].  Rejected: the callback throws, the [catch] callback
    calls [removeJob()]. *)
Definition onDeleteSettled (j : Job) : Job :=
  {| job_message := job_message j; job_phase := Settled;
     job_processed := job_processed j;
     job_deleteCalls := job_deleteCalls j;
     job_removeCalls := S (job_removeCalls j) |}.

Definition phase_eqb (p q : JobPhase) : bool :=
  match p, q with
  | Processing, Processing | Deleting, Deleting | Settled, Settled => true
  | _, _ => false
  end.

(** The chain of the [i]-th message received, if it stands at [phase]. *)
Definition jobAt (i : nat) (phase : JobPhase) (r : Receiver)
    : option Job :=
  match jobs r !! i with
  | Some j => if phase_eqb (job_phase j) phase then Some j else None
  | None => None
  end.

(** One turn of the event loop of the process, for one call of [start()]:
the loop goes on after an [await], or a promise of a chain settles.
[None]: the event cannot happen in this state. *)
Definition step (e : Event) (r : Receiver) : option Receiver :=
  match e with
  | LoopHead =>
      match pc r with
      | AtLoopHead =>
          if started r then
            if isAvailable r then Some (set_pc AwaitingReceive r)
            else Some (set_pc AwaitingTimeout r)
          else Some (set_pc Returned r)
      | _ => None
      end
  | ReceiveResolved received =>
      match pc r with
      | AwaitingReceive =>
          match received with
          | Some message =>
              let r1 := addJob r in
              match JSON_parse (Body message) with
              | Some _ =>
                  Some (set_pc AtLoopHead (push_job (newJob message) r1))
              | None => Some (set_pc (Rejected true) r1)
              end
          | None => Some (set_pc AtLoopHead r)
          end
      | _ => None
      end
  | ReceiveRejected =>
      match pc r with
      | AwaitingReceive => Some (set_pc (Rejected false) r)
      | _ => None
      end
  | TimeoutElapsed =>
      match pc r with
      | AwaitingTimeout => Some (set_pc AtLoopHead r)
      | _ => None
      end
  | ProcessResolved i =>
      match jobAt i Processing r with
      | Some j =>
          Some (deleteMessage (ReceiptHandle (job_message j))
                  (set_job i (onProcessResolved j) r))
      | None => None
      end
  | ProcessRejected i =>
      match jobAt i Processing r with
      | Some j => Some (removeJob (set_job i (onProcessRejected j) r))
      | None => None
      end
  | DeleteResolved i | DeleteRejected i =>
      match jobAt i Deleting r with
      | Some j => Some (removeJob (set_job i (onDeleteSettled j) r))
      | None => None
      end
  | StopCalled => Some (stop r)
  end.

Fixpoint run (es : list Event) (r : Receiver) : option Receiver :=
  match es with
  | [] => Some r
  | e :: es' =>
      match step e r with
      | Some r' => run es' r'
      | None => None
      end
  end.

(** The chains that have not run to their end. *)
Definition unsettled (j : Job) : bool :=
  match job_phase j with
  | Settled => false
  | _ => true
  end.

Definition inFlight (r : Receiver) : Z :=
  Z.of_nat (length (List.filter unsettled (jobs r)))
  + match pc r with
    | Rejected true => 1
    | _ => 0
    end.

End Loop.

End SqsQueueReceiver.

(** * The repositories *)

(** What [this.db().result(...)] does for an [update .. set .. where ..]:
    every row the [where] clause selects is rewritten, and [rowCount] is
    the number of rows selected. *)
Definition sql_update {A} (where_ : A → bool) (set_ : A → A)
    (rows : list A) : list A * nat :=
  (map (λ r, if where_ r then set_ r else r) rows,
   length (List.filter where_ rows)).

(** A scalar subquery [(select .. from .. where .. limit 1)]: the first
    row selected, or [NULL]. *)
Definition sql_select_first {A B} (where_ : A → bool) (column : A → B)
    (rows : list A) : option B :=
  column <$> List.find where_ rows.

(** [id = x] where [x] may be [NULL]: never true on [NULL]. *)
Definition sql_eq_nullable (a : string) (x : option string) : bool :=
  match x with
  | Some b => String.eqb a b
  | None => false
  end.

Module RepositoryBase.

(** Modelled from the spec: [RepositoryBase] of [@crowd/database] is not
    among the sources.  Every update of the repositories ends with
    [this.checkUpdateRowCount(result.rowCount, n)]; section 7 has every
    failure surface as an error, so a count other than the expected one
    throws. *)
Definition checkUpdateRowCount (rowCount expected : nat) : M unit :=
  if Nat.eqb rowCount expected then ret tt
  else throw (Error "Updated number of rows not equal to expected number!").

End RepositoryBase.

(** [IIntegrationStream] of [@crowd/types]. *)
Record IIntegrationStream : Type := {
  identifier : string;
  streamType : IntegrationStreamType;
  data : option Json;
}.

(** JavaScript truthiness of a string that may be [null], as in
    [streamInfo.parentId ? .. : ..]. *)
Definition truthy_string (s : option string) : bool :=
  match s with
  | Some s => negb (String.eqb s EmptyString)
  | None => false
  end.

(** JavaScript truthiness of a JSON value, as in [stream.data ? .. : null]. *)
Definition truthy (j : Json) : bool :=
  match j with
  | JNull => false
  | JBool b => b
  | JNumber n => negb (n =? 0)
  | JString s => negb (String.eqb s EmptyString)
  | JArray _ | JObject _ => true
  end.

(** [IGenerateStreamsData] of [integrationRun.data.ts]. *)
Record IGenerateStreamsData : Type := {
  gs_onboarding : bool;
  gs_integrationId : string;
  gs_integrationType : string;
  gs_integrationState : string;
  gs_integrationIdentifier : option string;
  gs_runState : IntegrationRunState;
  gs_runId : string;
  gs_tenantId : string;
  gs_integrationSettings : option Json;
  gs_streamCount : nat;
}.

(** [this.db().oneOrNone(..)] of pg-promise on the rows a query returns:
    the row, [null] when there is none, an error when there are several. *)
Definition oneOrNone {A} (rows : list A) : M (option A) :=
  match rows with
  | [] => ret None
  | [row] => ret (Some row)
  | _ => throw (Error "Multiple rows were not expected.")
  end.

Module IntegrationRunRepository.

Import RepositoryBase.

(** [with stream_count as (select "runId", count(id) as stream_count
    from integration."runStreams" where "runId" = $(runId)
    group by "runId")]: one row when the run has streams, none
    otherwise. *)
Definition stream_count (runId : string) (w : World)
    : list (string * nat) :=
  match List.filter (λ s, String.eqb (stream_runId s) runId)
          (runStreams w) with
  | [] => []
  | streams => [(runId, length streams)]
  end.

(** [left join stream_count c on c."runId" = r.id] with
    [coalesce(c.stream_count, 0)]: the counts joined to a run, 0 when no
    row of [stream_count] is. *)
Definition joined_stream_counts (runId : string) (r : Run) (w : World)
    : list nat :=
  match List.filter (λ c, String.eqb (fst c) (run_id r))
          (stream_count runId w) with
  | [] => [0%nat]
  | counts => map snd counts
  end.

(** [getGenerateStreamDataQuery]: [from integration.runs r inner join
    integrations i on (r."integrationId" = i.id and i."deletedAt" is
    null) left join stream_count c .. where r.id = $(runId)]. *)
Definition getGenerateStreamDataQuery (runId : string) (w : World)
    : list IGenerateStreamsData :=
  flat_map
    (λ r,
       flat_map
         (λ i,
            map
              (λ streamCount,
                 {| gs_onboarding := run_onboarding r;
                    gs_integrationId := run_integrationId r;
                    gs_integrationType := int_platform i;
                    gs_integrationState := int_status i;
                    gs_integrationIdentifier := int_identifier i;
                    gs_runState := run_state r;
                    gs_runId := run_id r;
                    gs_tenantId := run_tenantId r;
                    gs_integrationSettings := int_settings i;
                    gs_streamCount := streamCount |})
              (joined_stream_counts runId r w))
         (List.filter
            (λ i, String.eqb (run_integrationId r) (int_id i)
                  && bool_decide (int_deletedAt i = None))
            (integrations w)))
    (List.filter (λ r, String.eqb (run_id r) runId) (runs w)).

Definition getGenerateStreamData (runId : string)
    : M (option IGenerateStreamsData) :=
  λ w, oneOrNone (getGenerateStreamDataQuery runId w) w.

Definition update_runs (where_ : Run → bool) (set_ : Z → Run → Run)
    : M nat :=
  λ w, let (rows, rowCount) := sql_update where_ (set_ (clock w)) (runs w) in
       (set_runs (λ _, rows) w, Ok rowCount).

Definition update_integrations (where_ : World → Integration → bool)
    (set_ : Z → Integration → Integration) : M nat :=
  λ w, let (rows, rowCount) :=
         sql_update (where_ w) (set_ (clock w)) (integrations w) in
       (set_integrations (λ _, rows) w, Ok rowCount).

(** [set state = ERROR, "processedAt" = now(), error = $(error),
    "updatedAt" = now()]; the [error] column keeps the object that
    [JSON.stringify] serialises. *)
Definition set_run_error (error : ErrorInfo) (now : Z) (r : Run) : Run :=
  {| run_id := run_id r; run_tenantId := run_tenantId r;
     run_integrationId := run_integrationId r;
     run_microserviceId := run_microserviceId r;
     run_onboarding := run_onboarding r;
     run_state := RUN_ERROR;
     run_delayedUntil := run_delayedUntil r;
     run_processedAt := Some now;
     run_error := Some error;
     run_updatedAt := now |}.

Definition markRunError (runId : string) (error : ErrorInfo) : M unit :=
  await rowCount ←
    update_runs (λ r, String.eqb (run_id r) runId) (set_run_error error) ;;
  checkUpdateRowCount rowCount 1.

(** [set state = PROCESSING, "updatedAt" = now()] *)
Definition set_run_in_progress (now : Z) (r : Run) : Run :=
  {| run_id := run_id r; run_tenantId := run_tenantId r;
     run_integrationId := run_integrationId r;
     run_microserviceId := run_microserviceId r;
     run_onboarding := run_onboarding r;
     run_state := RUN_PROCESSING;
     run_delayedUntil := run_delayedUntil r;
     run_processedAt := run_processedAt r;
     run_error := run_error r;
     run_updatedAt := now |}.

Definition markRunInProgress (runId : string) : M unit :=
  await rowCount ←
    update_runs (λ r, String.eqb (run_id r) runId) set_run_in_progress ;;
  checkUpdateRowCount rowCount 1.

(** [set "updatedAt" = now()] *)
Definition set_run_touched (now : Z) (r : Run) : Run :=
  {| run_id := run_id r; run_tenantId := run_tenantId r;
     run_integrationId := run_integrationId r;
     run_microserviceId := run_microserviceId r;
     run_onboarding := run_onboarding r;
     run_state := run_state r;
     run_delayedUntil := run_delayedUntil r;
     run_processedAt := run_processedAt r;
     run_error := run_error r;
     run_updatedAt := now |}.

Definition touchRun (runId : string) : M unit :=
  await rowCount ←
    update_runs (λ r, String.eqb (run_id r) runId) set_run_touched ;;
  checkUpdateRowCount rowCount 1.

(** [set settings = settings || $(settings)::jsonb, "updatedAt" = now()] *)
Definition set_int_settings (settings : Json) (now : Z) (i : Integration)
    : Integration :=
  {| int_id := int_id i; int_platform := int_platform i;
     int_identifier := int_identifier i; int_status := int_status i;
     int_settings := sql_jsonb_concat (int_settings i) settings;
     int_deletedAt := int_deletedAt i;
     int_updatedAt := now |}.

(** [where id = (select "integrationId" from integration.runs
    where id = $(runId) limit 1)] *)
Definition updateIntegrationSettings (runId : string) (settings : Json)
    : M unit :=
  await rowCount ←
    update_integrations
      (λ w i, sql_eq_nullable (int_id i)
                (sql_select_first (λ r, String.eqb (run_id r) runId)
                   run_integrationId (runs w)))
      (set_int_settings settings) ;;
  checkUpdateRowCount rowCount 1.

(** The row that [insert into integration."runStreams"(id, "runId",
    state, identifier, type, data, "tenantId", "integrationId",
    "microserviceId") select .. from integration.runs] builds from a run;
    the columns the statement does not name are empty, [retries] is 0. *)
Definition new_stream_row (id runId : string) (stream : IIntegrationStream)
    (now : Z) (r : Run) : Stream :=
  {| stream_id := id;
     stream_runId := runId;
     stream_parentId := None;
     stream_state := STREAM_PENDING;
     stream_identifier := identifier stream;
     stream_type := Some (streamType stream);
     stream_data :=
       match data stream with
       | Some d => if truthy d then Some d else None
       | None => None
       end;
     stream_tenantId := run_tenantId r;
     stream_integrationId := run_integrationId r;
     stream_microserviceId := run_microserviceId r;
     stream_delayedUntil := None;
     stream_processedAt := None;
     stream_retries := 0;
     stream_error := None;
     stream_updatedAt := now |}.

(** [insert .. select .. from integration.runs where id = $(runId)]: one
    new row for every run selected. *)
Definition insert_runStreams (id runId : string)
    (stream : IIntegrationStream) : M nat :=
  λ w, let rows :=
         map (new_stream_row id runId stream (clock w))
           (List.filter (λ r, String.eqb (run_id r) runId) (runs w)) in
       (set_runStreams (λ l, l ++ rows) w, Ok (length rows)).

Definition publishStream (runId : string) (stream : IIntegrationStream)
    : M string :=
  await id ← generateUUIDv1 ;;
  await rowCount ← insert_runStreams id runId stream ;;
  await _ ← checkUpdateRowCount rowCount 1 ;;
  ret id.

End IntegrationRunRepository.

(** ** The stream worker's repository and senders *)

(** What [getStreamData] returns: the stream joined with its run and with
    the integration of the run (the fields [processStream] reads). *)
Record IStreamData : Type := {
  sd_onboarding : bool;
  sd_integrationId : string;
  sd_integrationType : string;
  sd_integrationState : string;
  sd_integrationIdentifier : option string;
  sd_integrationSettings : option Json;
  sd_runState : IntegrationRunState;
  sd_runId : string;
  sd_tenantId : string;
  sd_identifier : string;
  sd_parentId : option string;
  sd_data : option Json;
  sd_retries : Z;
}.

(** The methods of [IntegrationStreamRepository] that
    [IntegrationStreamService] calls on [this.repo]. *)
Module Repo.

Record StreamRepository : Type := {
  getStreamData : string → M (option IStreamData);
  markRunError : string → ErrorInfo → M unit;
  markStreamError : string → ErrorInfo → M unit;
  markStreamInProgress : string → M unit;
  markStreamProcessed : string → M unit;
  resetStream : string → M unit;
  delayRun : string → Z → M unit;
  delayStream : string → Z → M unit;
  updateIntegrationSettings : string → Json → M unit;
  publishStream : string → string → string → option Json → M string;
  publishData : string → Json → M string;
}.

End Repo.

(** [this.streamWorkerSender] and [this.dataWorkerSender], of [../queue]. *)
Module Queue.

Record StreamWorkerSender : Type := {
  triggerStreamProcessing : string → string → M unit;
}.

Record DataWorkerSender : Type := {
  triggerDataProcessing : string → string → M unit;
}.

(** Modelled from the spec: [../queue] is not among the sources.  Section
    6: the message is [{type: process_stream, streamId}] and "message
    group id = tenant id"; the sender is an [SqsQueueSender]. *)
Definition streamWorkerSender (q : SqsQueueBase) : StreamWorkerSender :=
  {| triggerStreamProcessing tenantId streamId :=
       SqsQueueSender.sendMessage q tenantId (ProcessStream streamId) |}.

(** Modelled from the spec: [../queue] is not among the sources.  Section
    6: the message is [{type: process_data, dataId}]. *)
Definition dataWorkerSender (q : SqsQueueBase) : DataWorkerSender :=
  {| triggerDataProcessing tenantId dataId :=
       SqsQueueSender.sendMessage q tenantId (ProcessData dataId) |}.

End Queue.

Module IntegrationStreamRepository.

Import RepositoryBase.

(** Modelled from the spec: the stream worker's repository is not among
    the sources; an update of [integration."runStreams"], as
    [update_runs] of the run repository is on [integration.runs]. *)
Definition update_runStreams (where_ : Stream → bool)
    (set_ : Z → Stream → Stream) : M nat :=
  λ w, let (rows, rowCount) :=
         sql_update where_ (set_ (clock w)) (runStreams w) in
       (set_runStreams (λ _, rows) w, Ok rowCount).

(** Modelled from the spec: the columns of a stream that section 4.3
    has the repository set ([state], [delayedUntil], [processedAt],
    [retries], [error]) and ["updatedAt"]. *)
Definition with_stream (state : IntegrationStreamState)
    (delayedUntil processedAt : option Z) (retries : Z)
    (error : option ErrorInfo) (now : Z) (s : Stream) : Stream :=
  {| stream_id := stream_id s; stream_runId := stream_runId s;
     stream_parentId := stream_parentId s;
     stream_state := state;
     stream_identifier := stream_identifier s;
     stream_type := stream_type s;
     stream_data := stream_data s;
     stream_tenantId := stream_tenantId s;
     stream_integrationId := stream_integrationId s;
     stream_microserviceId := stream_microserviceId s;
     stream_delayedUntil := delayedUntil;
     stream_processedAt := processedAt;
     stream_retries := retries;
     stream_error := error;
     stream_updatedAt := now |}.

(** Modelled from the spec: the stream worker's repository is not among
    the sources.  Section 4.3, step 1: "Load stream with joined
    run/integration info.  If missing, drop."  The integration is joined
    as in [getGenerateStreamData] of the run repository
    ([i."deletedAt" is null]). *)
Definition getStreamData (streamId : string) : M (option IStreamData) :=
  λ w,
    (w, Ok (
      s ← List.find (λ s, String.eqb (stream_id s) streamId) (runStreams w);
      r ← List.find (λ r, String.eqb (run_id r) (stream_runId s)) (runs w);
      i ← List.find
            (λ i, String.eqb (int_id i) (run_integrationId r)
                  && bool_decide (int_deletedAt i = None))
            (integrations w);
      Some {| sd_onboarding := run_onboarding r;
              sd_integrationId := run_integrationId r;
              sd_integrationType := int_platform i;
              sd_integrationState := int_status i;
              sd_integrationIdentifier := int_identifier i;
              sd_integrationSettings := int_settings i;
              sd_runState := run_state r;
              sd_runId := run_id r;
              sd_tenantId := run_tenantId r;
              sd_identifier := stream_identifier s;
              sd_parentId := stream_parentId s;
              sd_data := stream_data s;
              sd_retries := stream_retries s |})).

(** Modelled from the spec: not among the sources.  The stream worker's
    [markRunError] does what the run worker's does ("mark the run ERROR
    with location .."). *)
Definition markRunError : string → ErrorInfo → M unit :=
  IntegrationRunRepository.markRunError.

(** Modelled from the spec: not among the sources.  Section 4.3: "mark
    stream ERROR with location ..", "record the error on the stream"; the
    columns are those [markRunError] sets on a run. *)
Definition markStreamError (streamId : string) (error : ErrorInfo)
    : M unit :=
  await rowCount ←
    update_runStreams (λ s, String.eqb (stream_id s) streamId)
      (λ now s, with_stream STREAM_ERROR (stream_delayedUntil s) (Some now)
                  (stream_retries s) (Some error) now s) ;;
  checkUpdateRowCount rowCount 1.

(** Modelled from the spec: section 3, "terminal states are PROCESSED
    and ERROR". *)
Definition terminal (state : IntegrationStreamState) : bool :=
  match state with
  | STREAM_ERROR | STREAM_PROCESSED => true
  | _ => false
  end.

(** Modelled from the spec: not among the sources.  Section 4.3, step 5:
    "Mark stream PROCESSING"; section 3: "an idempotent
    markStreamInProgress that refuses re-entry from terminal states". *)
Definition markStreamInProgress (streamId : string) : M unit :=
  await rowCount ←
    update_runStreams
      (λ s, String.eqb (stream_id s) streamId
            && negb (terminal (stream_state s)))
      (λ now s, with_stream STREAM_PROCESSING (stream_delayedUntil s)
                  (stream_processedAt s) (stream_retries s)
                  (stream_error s) now s) ;;
  checkUpdateRowCount rowCount 1.

(** Modelled from the spec: not among the sources.  Section 4.3, step 5:
    "then mark PROCESSED". *)
Definition markStreamProcessed (streamId : string) : M unit :=
  await rowCount ←
    update_runStreams (λ s, String.eqb (stream_id s) streamId)
      (λ now s, with_stream STREAM_PROCESSED (stream_delayedUntil s)
                  (Some now) (stream_retries s) (stream_error s) now s) ;;
  checkUpdateRowCount rowCount 1.

(** Modelled from the spec: not among the sources.  Section 4.3, step 6:
    "reset the stream to PENDING (do not increment retries)". *)
Definition resetStream (streamId : string) : M unit :=
  await rowCount ←
    update_runStreams (λ s, String.eqb (stream_id s) streamId)
      (λ now s, with_stream STREAM_PENDING (stream_delayedUntil s)
                  (stream_processedAt s) (stream_retries s)
                  (stream_error s) now s) ;;
  checkUpdateRowCount rowCount 1.

(** Modelled from the spec: not among the sources.  Section 4.3, step 6:
    "transition the run to DELAYED with delayedUntil = .." *)
Definition delayRun (runId : string) (until : Z) : M unit :=
  await rowCount ←
    IntegrationRunRepository.update_runs
      (λ r, String.eqb (run_id r) runId)
      (λ now r,
         {| run_id := run_id r; run_tenantId := run_tenantId r;
            run_integrationId := run_integrationId r;
            run_microserviceId := run_microserviceId r;
            run_onboarding := run_onboarding r;
            run_state := RUN_DELAYED;
            run_delayedUntil := Some until;
            run_processedAt := run_processedAt r;
            run_error := run_error r;
            run_updatedAt := now |}) ;;
  checkUpdateRowCount rowCount 1.

(** Modelled from the spec: not among the sources.  Section 4.3, step 6:
    "transition the stream to DELAYED with delayedUntil = .. and
    increment retries". *)
Definition delayStream (streamId : string) (until : Z) : M unit :=
  await rowCount ←
    update_runStreams (λ s, String.eqb (stream_id s) streamId)
      (λ now s, with_stream STREAM_DELAYED (Some until)
                  (stream_processedAt s) (stream_retries s + 1)
                  (stream_error s) now s) ;;
  checkUpdateRowCount rowCount 1.

(** Modelled from the spec: not among the sources.  Section 4.3, step 4:
    "merges partial into integration.settings"; section 5: "does a
    jsonb-merge (settings || $partial) server-side".  The statement is the
    run repository's, with the integration found through the stream. *)
Definition updateIntegrationSettings (streamId : string) (settings : Json)
    : M unit :=
  await rowCount ←
    IntegrationRunRepository.update_integrations
      (λ w i, sql_eq_nullable (int_id i)
                (sql_select_first (λ s, String.eqb (stream_id s) streamId)
                   stream_integrationId (runStreams w)))
      (IntegrationRunRepository.set_int_settings settings) ;;
  checkUpdateRowCount rowCount 1.

(** Modelled from the spec: not among the sources.  Section 4.3, step 4:
    "publishStream(identifier, payload) inserts a child stream row with
    parentId = streamId".  The statement is the run repository's
    [publishStream], with the parent set. *)
Definition new_child_row (id parentId runId identifier : string)
    (data : option Json) (now : Z) (r : Run) : Stream :=
  {| stream_id := id;
     stream_runId := runId;
     stream_parentId := Some parentId;
     stream_state := STREAM_PENDING;
     stream_identifier := identifier;
     stream_type := Some CHILD;
     stream_data :=
       match data with
       | Some d => if truthy d then Some d else None
       | None => None
       end;
     stream_tenantId := run_tenantId r;
     stream_integrationId := run_integrationId r;
     stream_microserviceId := run_microserviceId r;
     stream_delayedUntil := None;
     stream_processedAt := None;
     stream_retries := 0;
     stream_error := None;
     stream_updatedAt := now |}.

(** Modelled from the spec: not among the sources.  Section 4.3, step 4,
    as above: one new row for the run, with a new id, which is returned. *)
Definition publishStream (parentId runId identifier : string)
    (data : option Json) : M string :=
  await id ← generateUUIDv1 ;;
  await rowCount ←
    (λ w, let rows :=
            map (new_child_row id parentId runId identifier data (clock w))
              (List.filter (λ r, String.eqb (run_id r) runId) (runs w)) in
          (set_runStreams (λ l, l ++ rows) w, Ok (length rows))) ;;
  await _ ← checkUpdateRowCount rowCount 1 ;;
  ret id.

(** Modelled from the spec: not among the sources.  Section 4.3, step 4:
    "publishData(payload) inserts a data row"; scenario 4: "one row in
    data referencing s1". *)
Definition publishData (streamId : string) (data : Json) : M string :=
  await id ← generateUUIDv1 ;;
  await rowCount ←
    (λ w, let rows :=
            map (λ s, {| data_id := id; data_streamId := streamId;
                         data_runId := stream_runId s;
                         data_tenantId := stream_tenantId s;
                         data_data := data;
                         data_state := DATA_PENDING |})
              (List.filter (λ s, String.eqb (stream_id s) streamId)
                 (runStreams w)) in
          (set_streamData (λ l, l ++ rows) w, Ok (length rows))) ;;
  await _ ← checkUpdateRowCount rowCount 1 ;;
  ret id.

(** Modelled from the spec: the repository of the stream worker, made of
    the methods above. *)
Definition repo : Repo.StreamRepository :=
  Repo.Build_StreamRepository getStreamData markRunError markStreamError
    markStreamInProgress markStreamProcessed resetStream delayRun
    delayStream updateIntegrationSettings publishStream publishData.

End IntegrationStreamRepository.

(** * [integrationStreamService.ts] *)

(** Modelled from the spec: [singleOrDefault] of [@crowd/common] is not
    among the sources.  Section 4.3, step 3: "Resolve the platform handler;
    if missing, mark stream ERROR": the one element that satisfies the
    predicate, [undefined] when there is none; a second match is an error. *)
Definition singleOrDefault {A} (array : list A) (predicate : A → bool)
    : M (option A) :=
  match List.filter predicate array with
  | [] => ret None
  | [x] => ret (Some x)
  | _ => throw (Error "Array contains more than one matching element!")
  end.

(** [IIntegration] of [@crowd/types]. *)
Record IIntegration : Type := {
  integration_id : string;
  integration_identifier : option string;
  integration_platform : string;
  integration_status : string;
  integration_settings : option Json;
}.

(** The fields of [IProcessStreamContext] that are values; its methods are
    the calls below, and [log] and [cache] do not touch the world. *)
Record IProcessStreamContext : Type := {
  onboarding : bool;
  integration : IIntegration;
  stream : IIntegrationStream;
}.

(** A call of a method of the context. *)
Inductive ContextCall : Type :=
  | CallPublishData (data : Json)
  | CallPublishStream (identifier : string) (data : option Json)
  | CallUpdateIntegrationSettings (settings : Json)
  | CallAbortWithError (message : string) (metadata : option Json)
  | CallAbortRunWithError (message : string) (metadata : option Json).

(** What a platform's [processStream(context)] does, seen from the
    service: it returns, throws, awaits a method of the context and goes on
    with how that promise settled (a handler without [try] goes on with
    [Raise e] after [Throw e]), or awaits something of its own (an HTTP
    request, the cache) while the clock moves.  The calls are awaited one
    after the other, as the handlers of the repository do. *)
Inductive Handler : Type :=
  | Return
  | Raise (e : Err)
  | Await (call : ContextCall) (k : Result unit → Handler)
  | External (elapsed : Z) (k : Handler).

(** An entry of [INTEGRATION_SERVICES]. *)
Record IIntegrationService : Type := {
  svc_type : string;
  svc_processStream : IProcessStreamContext → Handler;
}.

Record IWorkerSettings : Type := {
  maxStreamRetries : Z;
}.

Module IntegrationStreamService.

Section Service.

Variable repo : Repo.StreamRepository.
Variable dataWorkerSender : Queue.DataWorkerSender.
Variable streamWorkerSender : Queue.StreamWorkerSender.
Variable WORKER_SETTINGS : IWorkerSettings.
Variable INTEGRATION_SERVICES : list IIntegrationService.

Definition triggerRunError (runId location message : string)
    (metadata : Metadata) : M unit :=
  Repo.markRunError repo runId
    {| location := location; message := message; metadata := metadata |}.

Definition triggerStreamError (streamId location message : string)
    (metadata : Metadata) : M unit :=
  Repo.markStreamError repo streamId
    {| location := location; message := message; metadata := metadata |}.

Definition updateIntegrationSettings (streamId : string) (settings : Json)
    : M unit :=
  try_catch
    (Repo.updateIntegrationSettings repo streamId settings)
    (λ err,
       await _ ← triggerRunError streamId "run-stream-update-settings"
                   "Error while updating settings!" (MdError err) ;;
       throw err).

Definition publishStream (parentId tenantId runId identifier : string)
    (data : option Json) : M unit :=
  try_catch
    (await streamId ←
       Repo.publishStream repo parentId runId identifier data ;;
     Queue.triggerStreamProcessing streamWorkerSender tenantId streamId)
    (λ err,
       await _ ← triggerRunError runId "run-publish-child-stream"
                   "Error while publishing child stream!" (MdError err) ;;
       throw err).

Definition publishData (tenantId runId streamId : string) (data : Json)
    : M unit :=
  try_catch
    (await dataId ← Repo.publishData repo streamId data ;;
     Queue.triggerDataProcessing dataWorkerSender tenantId dataId)
    (λ err,
       await _ ← triggerRunError runId "run-publish-stream-data"
                   "Error while publishing stream data!" (MdError err) ;;
       throw err).

Definition optional_metadata (metadata : option Json) : Metadata :=
  match metadata with
  | Some j => MdJson j
  | None => MdUndefined
  end.

(** The closures that [processStream] puts into [context]. *)
Definition contextCall (streamId : string) (streamInfo : IStreamData)
    (call : ContextCall) : M unit :=
  match call with
  | CallPublishData data =>
      publishData (sd_tenantId streamInfo) (sd_runId streamInfo)
        streamId data
  | CallPublishStream identifier data =>
      publishStream streamId (sd_tenantId streamInfo)
        (sd_runId streamInfo) identifier data
  | CallUpdateIntegrationSettings settings =>
      updateIntegrationSettings streamId settings
  | CallAbortWithError message metadata =>
      triggerStreamError streamId "stream-abort" message
        (optional_metadata metadata)
  | CallAbortRunWithError message metadata =>
      triggerRunError (sd_runId streamInfo) "stream-run-abort" message
        (optional_metadata metadata)
  end.

(** [await integrationService.processStream(context)] *)
Fixpoint runHandler (streamId : string) (streamInfo : IStreamData)
    (h : Handler) : M unit :=
  match h with
  | Return => ret tt
  | Raise e => throw e
  | Await call k =>
      λ w, let (w', r) := contextCall streamId streamInfo call w in
           runHandler streamId streamInfo (k r) w'
  | External elapsed k =>
      λ w, runHandler streamId streamInfo k
             (set_clock (λ t, t + elapsed) w)
  end.

Definition context (streamInfo : IStreamData) : IProcessStreamContext :=
  {| onboarding := sd_onboarding streamInfo;
     integration :=
       {| integration_id := sd_integrationId streamInfo;
          integration_identifier := sd_integrationIdentifier streamInfo;
          integration_platform := sd_integrationType streamInfo;
          integration_status := sd_integrationState streamInfo;
          integration_settings := sd_integrationSettings streamInfo |};
     stream :=
       {| identifier := sd_identifier streamInfo;
          streamType :=
            if truthy_string (sd_parentId streamInfo) then CHILD
            else ROOT;
          data := sd_data streamInfo |} |}.

(** The [catch (err)] block of [processStream]. *)
Definition onProcessError (streamId : string) (streamInfo : IStreamData)
    (err : Err) : M unit :=
  match err with
  | RateLimitError rateLimitResetSeconds =>
      await now ← newDate ;;
      let until := addSeconds now rateLimitResetSeconds in
      await _ ← Repo.resetStream repo streamId ;;
      Repo.delayRun repo (sd_runId streamInfo) until
  | _ =>
      await _ ← triggerStreamError streamId "stream-process"
                  "Error while processing stream!" (MdError err) ;;
      if sd_retries streamInfo + 1 <=? maxStreamRetries WORKER_SETTINGS
      then
        await now ← newDate ;;
        let until :=
          addSeconds now ((sd_retries streamInfo + 1) * 15 * 60) in
        Repo.delayStream repo streamId until
      else
        triggerRunError (sd_runId streamInfo) "stream-run-stop"
          "Stream reached maximum retries!"
          (MdRetries (sd_retries streamInfo + 1)
             (maxStreamRetries WORKER_SETTINGS))
  end.

Definition processStream (streamId : string) : M unit :=
  await streamInfo ← Repo.getStreamData repo streamId ;;
  match streamInfo with
  | None => ret tt
  | Some streamInfo =>
      if negb (run_state_eqb (sd_runState streamInfo) RUN_PROCESSING)
      then
        triggerStreamError streamId "check-stream-run-state"
          "Run is not in processing state!"
          (MdActualState (sd_runState streamInfo))
      else
        await integrationService ←
          singleOrDefault INTEGRATION_SERVICES
            (λ i, String.eqb (svc_type i)
                    (sd_integrationType streamInfo)) ;;
        match integrationService with
        | None =>
            triggerStreamError streamId "check-stream-int-service"
              "Could not find integration service!"
              (MdType (sd_integrationType streamInfo))
        | Some integrationService =>
            await _ ← Repo.markStreamInProgress repo streamId ;;
            try_catch
              (await _ ←
                 runHandler streamId streamInfo
                   (svc_processStream integrationService
                      (context streamInfo)) ;;
               Repo.markStreamProcessed repo streamId)
              (onProcessError streamId streamInfo)
        end
  end.

End Service.

End IntegrationStreamService.

(** * Fixtures *)

Module Fixture.

Definition run1 : Run :=
  {| run_id := "run-1"; run_tenantId := "tenant-1";
     run_integrationId := "int-1"; run_microserviceId := None;
     run_onboarding := false; run_state := RUN_PROCESSING;
     run_delayedUntil := None; run_processedAt := None;
     run_error := None; run_updatedAt := 0 |}.

Definition stream1 : Stream :=
  {| stream_id := "stream-1"; stream_runId := "run-1";
     stream_parentId := None; stream_state := STREAM_PENDING;
     stream_identifier := "posts"; stream_type := Some ROOT;
     stream_data := None; stream_tenantId := "tenant-1";
     stream_integrationId := "int-1"; stream_microserviceId := None;
     stream_delayedUntil := None; stream_processedAt := None;
     stream_retries := 0; stream_error := None; stream_updatedAt := 0 |}.

(** Scenario 5 of the specification: settings
    [{posts: [], lastSync: null}]. *)
Definition settings1 : gmap string Json :=
  <["posts" := JArray []]> (<["lastSync" := JNull]> ∅).

Definition int1 : Integration :=
  {| int_id := "int-1"; int_platform := "linkedin";
     int_identifier := None; int_status := "done";
     int_settings := Some (JObject settings1);
     int_deletedAt := None; int_updatedAt := 0 |}.

Definition world1 : World :=
  {| runs := [run1]; runStreams := [stream1]; streamData := [];
     integrations := [int1]; sqs := []; clock := 1700000000000;
     uuidSeq := 0 |}.

(** The run before any stream was published. *)
Definition world0 : World :=
  {| runs := [run1]; runStreams := []; streamData := [];
     integrations := [int1]; sqs := []; clock := 1700000000000;
     uuidSeq := 0 |}.

Definition structuredError : ErrorInfo :=
  {| location := "run-generate-streams"; message := "failed";
     metadata := MdUndefined |}.

Definition fifoQueue : SqsQueueBase :=
  {| queueConf := {| name := "integration-stream-worker"; type := FIFO |};
     queueUrl := Some "https://sqs/integration-stream-worker.fifo" |}.

(** A sender on which [init()] was never called. *)
Definition uninitializedQueue : SqsQueueBase :=
  {| queueConf := {| name := "integration-stream-worker"; type := FIFO |};
     queueUrl := None |}.

Definition rootStream : IIntegrationStream :=
  {| identifier := "posts"; streamType := ROOT; data := None |}.

Definition childPayload : Json :=
  JObject (<["cursor" := JString "x"]> ∅).

(** A handler that publishes a child stream, waits 250 ms for the
    platform and fails. *)
Definition failingHandler (context : IProcessStreamContext) : Handler :=
  Await (CallPublishStream "child-a" (Some childPayload))
    (λ _, External 250 (Raise (Error "request failed"))).


Definition failingService : IIntegrationService :=
  {| svc_type := "linkedin"; svc_processStream := failingHandler |}.


Definition failingServices : list IIntegrationService := [failingService].


Definition workerSettings : IWorkerSettings := {| maxStreamRetries := 2 |}.

(** The run of [world1] after it has errored. *)
Definition worldRunError : World :=
  set_runs (λ _, [IntegrationRunRepository.set_run_error structuredError
                    1690000000000 run1]) world1.

Definition streamInfo1 : IStreamData :=
  {| sd_onboarding := false; sd_integrationId := "int-1";
     sd_integrationType := "linkedin"; sd_integrationState := "done";
     sd_integrationIdentifier := None;
     sd_integrationSettings := Some (JObject settings1);
     sd_runState := RUN_PROCESSING; sd_runId := "run-1";
     sd_tenantId := "tenant-1"; sd_identifier := "posts";
     sd_parentId := None; sd_data := None; sd_retries := 0 |}.

(** [world1] when the stream has failed twice already. *)
Definition world1Retried : World :=
  set_runStreams
    (map (IntegrationStreamRepository.with_stream STREAM_PENDING None None 2
            None 1695000000000)) world1.

(** [world1] once the stream is marked as in progress. *)
Definition world1InProgress : World :=
  (IntegrationStreamRepository.markStreamInProgress "stream-1" world1).1.

(** The world in which a handler of the stream of [world1] stops. *)
Definition worldAfter (service : IIntegrationService) : World :=
  (IntegrationStreamService.runHandler IntegrationStreamRepository.repo
     (Queue.dataWorkerSender fifoQueue) (Queue.streamWorkerSender fifoQueue)
     "stream-1" streamInfo1
     (svc_processStream service
        (IntegrationStreamService.context streamInfo1))
     world1InProgress).1.

End Fixture.

(** The rows of [integration."runStreams"] that a publication under
    [runId] with [identifier] would have to be compared with. *)
Definition same_stream (runId identifier : string) (s : Stream) : bool :=
  String.eqb (stream_runId s) runId
  && String.eqb (stream_identifier s) identifier.


(** ** What a stream under processing keeps *)

(** While the handler of the stream [streamId] of the run [runId] runs,
    the table of streams has one row of that id, with [retries] retries,
    the table of runs has one row of the run, and no identifier still to be
    generated is [streamId]. *)
Record Tracked (streamId runId : string) (retries : Z) (w : World)
    : Prop := {
  tracked_stream :
    ∃ s, List.filter (λ s, String.eqb (stream_id s) streamId) (runStreams w)
         = [s]
         ∧ stream_retries s = retries;
  tracked_run :
    ∃ r, List.filter (λ r, String.eqb (run_id r) runId) (runs w) = [r];
  tracked_fresh :
    ∀ n, (uuidSeq w ≤ n)%N → uuid_of n ≠ streamId;
}.

(** A computation that keeps [Tracked], however it ends. *)
Definition Keeps {A} (streamId runId : string) (retries : Z) (m : M A)
    : Prop :=
  ∀ w w' r, Tracked streamId runId retries w → m w = (w', r) →
            Tracked streamId runId retries w'.

(** * Invariants of the receiver loop *)

Module ReceiverInvariant.

Import SqsQueueReceiver.

(** What holds of the promise chain of a message at every moment. *)
Definition job_ok (j : Job) : Prop :=
  match job_phase j with
  | Processing =>
      job_processed j = None ∧ job_deleteCalls j = 0%nat
      ∧ job_removeCalls j = 0%nat
  | Deleting =>
      job_processed j = Some true ∧ job_deleteCalls j = 1%nat
      ∧ job_removeCalls j = 0%nat
  | Settled =>
      job_removeCalls j = 1%nat
      ∧ ((job_processed j = Some true ∧ job_deleteCalls j = 1%nat)
         ∨ (job_processed j = Some false ∧ job_deleteCalls j = 0%nat))
  end.

(** [processMessage] resolved on the message with receipt handle [x]. *)
Definition resolved_with (x : string) (j : Job) : Prop :=
  job_processed j = Some true ∧ ReceiptHandle (job_message j) = x.

Definition receipts_ok (r : Receiver) : Prop :=
  ∀ x, x ∈ deletedReceipts r
       ↔ ∃ i j, jobs r !! i = Some j ∧ resolved_with x j.

Definition unsettledZ (j : Job) : Z := if unsettled j then 1 else 0.

(** The counter counts the chains in flight and respects the maximum. *)
Record Counted (max : Z) (r : Receiver) : Prop := {
  counted : processingMessages r = inFlight r;
  bounded : processingMessages r ≤ max;
  received_below : pc r = AwaitingReceive → processingMessages r < max;
}.

Record Inv (max : Z) (r : Receiver) : Prop := {
  inv_jobs : Forall job_ok (jobs r);
  inv_receipts : receipts_ok r;
  inv_counted : 0 ≤ max → Counted max r;
}.

End ReceiverInvariant.

(** * An execution of the receiver loop *)

Module ReceiverExample.

Import SqsQueueReceiver.

Definition parse (body : string) : option IQueueMessage :=
  Some (ProcessStream body).

Definition m1 : SqsMessage :=
  {| MessageId := "m1"; ReceiptHandle := "receipt-1"; Body := "s1" |}.

Definition m2 : SqsMessage :=
  {| MessageId := "m2"; ReceiptHandle := "receipt-2"; Body := "s2" |}.

(** Two messages are taken; the first is processed and deleted, the
    second fails; then the queue is empty. *)
Definition events : list Event :=
  [ LoopHead; ReceiveResolved (Some m1);
    LoopHead; ReceiveResolved (Some m2);
    LoopHead; ProcessResolved 0; ProcessRejected 1; TimeoutElapsed;
    DeleteResolved 0; LoopHead; ReceiveResolved None ].

End ReceiverExample.

(** * [premium/linkedin/processStream.ts]: the watermarks kept in the
      settings *)

Module Linkedin.

(** A [TypeError] of JavaScript. *)
Definition TypeError (message : string) : Err := Error message.

(** [ctx.integration.settings] as the handler sees it: a column that is
    [NULL] reads as [null]. *)
Definition settings_value (ctx : IProcessStreamContext) : Json :=
  default JNull (integration_settings (integration ctx)).

(** [o.key] for a key that is neither an index nor [length]; [None] is
    [undefined], and reading a property of [null] throws. *)
Definition property (o : Json) (key : string) : Result (option Json) :=
  match o with
  | JNull => Throw (TypeError "Cannot read properties of null")
  | JObject m => Ok (m !! key)
  | _ => Ok None
  end.

(** [(ctx.integration.settings as any).posts || []], on which [find] is
    then called: the elements of the array, and whether it is the array
    of the settings (it is a new, empty one when [posts] is missing or
    falsy).  A value that is truthy and no array has no [find]. *)
Definition posts_of (settings : Json) : Result (bool * list Json) :=
  match property settings "posts" with
  | Throw e => Throw e
  | Ok None => Ok (false, [])
  | Ok (Some v) =>
      if truthy v then
        match v with
        | JArray l => Ok (true, l)
        | _ => Throw (TypeError "posts.find is not a function")
        end
      else Ok (false, [])
  end.

(** [p.id === postUrnId]: the fields of [p] when it holds, [None] when
    it does not. *)
Definition post_with_id (p : Json) (postUrnId : string)
    : Result (option (gmap string Json)) :=
  match p with
  | JNull => Throw (TypeError "Cannot read properties of null")
  | JObject m =>
      match m !! "id" with
      | Some (JString s) =>
          if String.eqb s postUrnId then Ok (Some m) else Ok None
      | _ => Ok None
      end
  | _ => Ok None
  end.

(** [posts.find((p) => p.id === postUrnId)]: the position and the fields
    of the first element that has the id. *)
Fixpoint find_post (posts : list Json) (postUrnId : string)
    : Result (option (nat * gmap string Json)) :=
  match posts with
  | [] => Ok None
  | p :: rest =>
      match post_with_id p postUrnId with
      | Throw e => Throw e
      | Ok (Some m) => Ok (Some (0%nat, m))
      | Ok None =>
          match find_post rest postUrnId with
          | Ok (Some (i, m)) => Ok (Some (S i, m))
          | other => other
          end
      end
  end.

(** [getLastReactionTs] and [getLastCommentTs], which differ by the field
    they read: [cachedPost?.field]. *)
Definition getLastTs (field : string) (ctx : IProcessStreamContext)
    (postUrnId : string) : Result (option Json) :=
  match posts_of (settings_value ctx) with
  | Throw e => Throw e
  | Ok (_, posts) =>
      match find_post posts postUrnId with
      | Throw e => Throw e
      | Ok None => Ok None
      | Ok (Some (_, cachedPost)) => Ok (cachedPost !! field)
      end
  end.

Definition getLastReactionTs : IProcessStreamContext → string →
    Result (option Json) :=
  getLastTs "lastReactionTs".

Definition getLastCommentTs : IProcessStreamContext → string →
    Result (option Json) :=
  getLastTs "lastCommentTs".

(** The own enumerable properties that [{...o}] copies. *)
Definition spread (o : Json) : gmap string Json :=
  match o with
  | JObject m => m
  | JArray l => list_to_map (imap (λ i x, (pretty i, x)) l)
  | JString s =>
      list_to_map
        (imap (λ i c, (pretty i, JString (String c EmptyString)))
           (list_ascii_of_string s))
  | _ => ∅
  end.

(** [posts] after [cachedPost.field = ts], or after
    [posts.push({ id: postUrnId, field: ts })]. *)
Definition updated_posts (field : string) (posts : list Json)
    (found : option (nat * gmap string Json)) (postUrnId : string)
    (ts : Z) : list Json :=
  match found with
  | Some (i, cachedPost) =>
      <[i := JObject (<[field := JNumber ts]> cachedPost)]> posts
  | None =>
      posts ++ [JObject (<["id" := JString postUrnId]>
                           (<[field := JNumber ts]> ∅))]
  end.

Definition with_settings (ctx : IProcessStreamContext) (settings : Json)
    : IProcessStreamContext :=
  {| onboarding := onboarding ctx;
     integration :=
       {| integration_id := integration_id (integration ctx);
          integration_identifier :=
            integration_identifier (integration ctx);
          integration_platform := integration_platform (integration ctx);
          integration_status := integration_status (integration ctx);
          integration_settings := Some settings |};
     stream := stream ctx |}.

(** The object [{ ...(ctx.integration.settings as any), posts }]. *)
Definition settings_with_posts (settings : Json) (posts : list Json)
    : Json :=
  JObject (<["posts" := JArray posts]> (spread settings)).

(** [setLastReactionTs] and [setLastCommentTs], which differ by the field
    they write.  The array is changed in place: when it is the array of
    the settings, the context that the rest of the handler ([k]) reads
    has the change; when it is a new array, it has not. *)
Definition setLastTs (field : string) (ctx : IProcessStreamContext)
    (postUrnId : string) (ts : Z) (k : IProcessStreamContext → Handler)
    : Handler :=
  match posts_of (settings_value ctx) with
  | Throw e => Raise e
  | Ok (own, posts) =>
      match find_post posts postUrnId with
      | Throw e => Raise e
      | Ok found =>
          let posts' := updated_posts field posts found postUrnId ts in
          let ctx' :=
            if own
            then with_settings ctx
                   (settings_with_posts (settings_value ctx) posts')
            else ctx in
          Await (CallUpdateIntegrationSettings
                   (settings_with_posts (settings_value ctx) posts'))
            (λ r, match r with
                  | Ok _ => k ctx'
                  | Throw e => Raise e
                  end)
      end
  end.

Definition setLastReactionTs : IProcessStreamContext → string → Z →
    (IProcessStreamContext → Handler) → Handler :=
  setLastTs "lastReactionTs".

Definition setLastCommentTs : IProcessStreamContext → string → Z →
    (IProcessStreamContext → Handler) → Handler :=
  setLastTs "lastCommentTs".

End Linkedin.

(** * More on the receiver loop *)

(** How many more messages a loop at [pc] can take once [stop()] was
    called: the one it may be awaiting. *)
Definition receivesLeft (pc : SqsQueueReceiver.LoopPc) : nat :=
  match pc with
  | SqsQueueReceiver.AwaitingReceive => 1
  | _ => 0
  end.

(** * More fixtures *)

Module Scenario.

(** A parser that rejects one body, as [JSON.parse] rejects a body that
    is cut short. *)
Definition strictParse (body : string) : option IQueueMessage :=
  if String.eqb body "{" then None else Some (ProcessStream body).

Definition badMessage : SqsQueueReceiver.SqsMessage :=
  {| SqsQueueReceiver.MessageId := "m3";
     SqsQueueReceiver.ReceiptHandle := "receipt-3";
     SqsQueueReceiver.Body := "{" |}.

(** The integration of [Fixture.world1] with no settings yet. *)
Definition intNoSettings : Integration :=
  {| int_id := "int-1"; int_platform := "linkedin";
     int_identifier := None; int_status := "done";
     int_settings := None; int_deletedAt := None; int_updatedAt := 0 |}.

Definition worldNoSettings : World :=
  {| runs := [Fixture.run1]; runStreams := [Fixture.stream1];
     streamData := []; integrations := [intNoSettings]; sqs := [];
     clock := 1700000000000; uuidSeq := 0 |}.

(** The integration of [Fixture.world1], deleted. *)
Definition intDeleted : Integration :=
  {| int_id := "int-1"; int_platform := "linkedin";
     int_identifier := None; int_status := "done";
     int_settings := Some (JObject Fixture.settings1);
     int_deletedAt := Some 1690000000000; int_updatedAt := 0 |}.

Definition worldDeleted : World :=
  {| runs := [Fixture.run1]; runStreams := [Fixture.stream1];
     streamData := []; integrations := [intDeleted]; sqs := [];
     clock := 1700000000000; uuidSeq := 0 |}.


(** A registry without a service for LinkedIn. *)
Definition devtoServices : list IIntegrationService :=
  [{| svc_type := "devto";
      svc_processStream := Fixture.failingHandler |}].

Definition post1 : gmap string Json :=
  <["id" := JString "urn:li:share:1"]>
    (<["lastReactionTs" := JNumber 100]>
       (<["lastCommentTs" := JNumber 50]> ∅)).

Definition post2 : gmap string Json :=
  <["id" := JString "urn:li:share:2"]>
    (<["lastReactionTs" := JNumber 70]> ∅).

(** Settings of a LinkedIn integration that has seen two posts. *)
Definition linkedinSettings : gmap string Json :=
  <["posts" := JArray [JObject post1; JObject post2]]>
    (<["organization" := JString "urn:li:organization:7"]> ∅).

Definition linkedinContext : IProcessStreamContext :=
  {| onboarding := false;
     integration :=
       {| integration_id := "int-1"; integration_identifier := None;
          integration_platform := "linkedin";
          integration_status := "done";
          integration_settings := Some (JObject linkedinSettings) |};
     stream :=
       {| identifier := "post_reactions-urn:li:share:1";
          streamType := CHILD; data := None |} |}.

(** The settings stored by the time the handler writes: another stream
    has changed [organization] and recorded a third post. *)
Definition storedSettings : gmap string Json :=
  <["posts" := JArray [JObject post1; JObject post2;
                       JObject (<["id" := JString "urn:li:share:3"]> ∅)]]>
    (<["organization" := JString "urn:li:organization:8"]>
       (<["lastSync" := JNumber 5]> ∅)).

Definition intStored : Integration :=
  {| int_id := "int-1"; int_platform := "linkedin";
     int_identifier := None; int_status := "done";
     int_settings := Some (JObject storedSettings);
     int_deletedAt := None; int_updatedAt := 0 |}.

(** The stream worker's repository on a database that rejects the two
    inserts. *)
Definition insertRejected : Err :=
  Error "duplicate key value violates unique constraint".

Definition rejectingRepo : Repo.StreamRepository :=
  Repo.Build_StreamRepository IntegrationStreamRepository.getStreamData
    IntegrationStreamRepository.markRunError
    IntegrationStreamRepository.markStreamError
    IntegrationStreamRepository.markStreamInProgress
    IntegrationStreamRepository.markStreamProcessed
    IntegrationStreamRepository.resetStream
    IntegrationStreamRepository.delayRun
    IntegrationStreamRepository.delayStream
    IntegrationStreamRepository.updateIntegrationSettings
    (λ _ _ _ _, throw insertRejected)
    (λ _ _, throw insertRejected).

End Scenario.

(** [Fixture.world1] after the integration was removed. *)
Definition worldNoIntegration : World :=
  {| runs := [Fixture.run1]; runStreams := [Fixture.stream1];
     streamData := []; integrations := []; sqs := [];
     clock := 1700000000000; uuidSeq := 0 |}.

(** * Properties *)

(** ** The receiver loop *)

Module ReceiverFacts.

Import SqsQueueReceiver ReceiverInvariant.

Lemma unsettledZ_phase (j : Job) :
  unsettledZ j = match job_phase j with Settled => 0 | _ => 1 end.
Proof. unfold unsettledZ, unsettled. by destruct (job_phase j). Qed.

(** Rewriting one chain changes the number of unsettled chains by what
    the old and the new chain count for. *)
Lemma filter_insert_length (l : list Job) (i : nat) (x y : Job) :
  l !! i = Some x →
  Z.of_nat (length (List.filter unsettled (<[i:=y]> l)))
  = Z.of_nat (length (List.filter unsettled l)) - unsettledZ x + unsettledZ y.
Proof.
  revert i. induction l as [|a l IH]; intros [|i] Hi; simpl in *; try done.
  - injection Hi as ->. unfold unsettledZ.
    destruct (unsettled x), (unsettled y); simpl; lia.
  - specialize (IH i Hi). destruct (unsettled a); simpl; lia.
Qed.

Lemma filter_app_length (l : list Job) (j : Job) :
  Z.of_nat (length (List.filter unsettled (l ++ [j])))
  = Z.of_nat (length (List.filter unsettled l)) + unsettledZ j.
Proof.
  rewrite List.filter_app, length_app. simpl. unfold unsettledZ.
  destruct (unsettled j); simpl; lia.
Qed.

Lemma Forall_insert_ok (l : list Job) (i : nat) (y : Job) :
  Forall job_ok l → job_ok y → Forall job_ok (<[i:=y]> l).
Proof.
  intros Hl Hy. revert i. induction Hl; intros [|i]; simpl; auto.
Qed.

Lemma jobAt_Some i ph r j :
  jobAt i ph r = Some j → jobs r !! i = Some j ∧ job_phase j = ph.
Proof.
  unfold jobAt. destruct (jobs r !! i) as [j0|]; [|done].
  destruct (job_phase j0) eqn:Hp, ph; simpl; try done;
    intros [= <-]; done.
Qed.

(** Rewriting the [i]-th chain: which receipts count as resolved. *)
Lemma resolved_insert (l : list Job) (i : nat) (j j' : Job) (x : string) :
  l !! i = Some j →
  (∃ k a, <[i:=j']> l !! k = Some a ∧ resolved_with x a)
  ↔ (∃ k a, l !! k = Some a ∧ k ≠ i ∧ resolved_with x a)
    ∨ resolved_with x j'.
Proof.
  intros Hi. pose proof (lookup_lt_Some _ _ _ Hi) as Hlt. split.
  - intros (k & a & Hk & Ha). destruct (decide (i = k)) as [<-|Hne].
    + rewrite list_lookup_insert_eq in Hk by done.
      injection Hk as <-. by right.
    + rewrite list_lookup_insert_ne in Hk by done. left. eauto.
  - intros [(k & a & Hk & Hne & Ha)|Ha].
    + exists k, a. by rewrite list_lookup_insert_ne.
    + exists i, j'. by rewrite list_lookup_insert_eq.
Qed.

Lemma resolved_split (l : list Job) (i : nat) (j : Job) (x : string) :
  l !! i = Some j →
  (∃ k a, l !! k = Some a ∧ resolved_with x a)
  ↔ (∃ k a, l !! k = Some a ∧ k ≠ i ∧ resolved_with x a)
    ∨ resolved_with x j.
Proof.
  intros Hi. rewrite <- (resolved_insert l i j j x Hi).
  by rewrite list_insert_id.
Qed.

(** All the ways in which [step e r = Some r'] can hold. *)
Ltac step_cases H :=
  unfold step in H; cbv zeta in H;
  repeat match type of H with
         | match ?c with _ => _ end = Some _ =>
             let E := fresh "E" in destruct c eqn:E; try discriminate H
         | (if ?c then _ else _) = Some _ =>
             let E := fresh "E" in destruct c eqn:E; try discriminate H
         end;
  injection H as <-;
  repeat match goal with
         | E : jobAt _ _ _ = Some _ |- _ =>
             apply jobAt_Some in E; destruct E as [? ?]
         end.

Section Invariant.

Variable max : Z.
Variable JSON_parse : string → option IQueueMessage.

(** Each of the three invariants is kept by a step of the event
    loop. *)
Lemma jobs_ok_step e r r' :
  Forall job_ok (jobs r) → step max JSON_parse e r = Some r' →
  Forall job_ok (jobs r').
Proof.
  intros Hj Hstep. step_cases Hstep; simpl; try done;
    try (apply Forall_app; split; [done|]; by repeat constructor);
    match goal with
    | Hi : jobs r !! _ = Some ?j, Hp : job_phase ?j = _ |- _ =>
        pose proof (Forall_lookup_1 _ _ _ _ Hj Hi) as Hok;
        unfold job_ok in Hok; rewrite Hp in Hok;
        apply Forall_insert_ok; [done|]; unfold job_ok; simpl
    end; intuition congruence.
Qed.

Lemma receipts_ok_step e r r' :
  Forall job_ok (jobs r) → receipts_ok r →
  step max JSON_parse e r = Some r' → receipts_ok r'.
Proof.
  intros Hj Hr Hstep. unfold receipts_ok in *.
  step_cases Hstep; simpl; try done.
  - (* a message was received *)
    intros x. rewrite Hr. split; intros (k & a & Hk & Ha).
    + exists k, a. split; [|done]. by apply lookup_app_l_Some.
    + apply lookup_app_Some in Hk as [Hk|[_ Hk]]; [by eauto|].
      destruct (k - length (jobs r))%nat; simpl in Hk; [|done].
      injection Hk as <-. by destruct Ha.
  - (* processMessage resolved *)
    intros x. rewrite elem_of_app, list_elem_of_singleton, Hr.
    rewrite (resolved_insert _ _ _ _ _ H), (resolved_split _ _ _ _ H).
    pose proof (Forall_lookup_1 _ _ _ _ Hj H) as Hok.
    unfold job_ok in Hok. rewrite H0 in Hok.
    unfold resolved_with at 2 4. simpl. intuition congruence.
  - (* processMessage rejected *)
    intros x. rewrite Hr.
    rewrite (resolved_insert _ _ _ _ _ H), (resolved_split _ _ _ _ H).
    pose proof (Forall_lookup_1 _ _ _ _ Hj H) as Hok.
    unfold job_ok in Hok. rewrite H0 in Hok.
    unfold resolved_with at 2 4. simpl. intuition congruence.
  - (* deleteMessage resolved *)
    intros x. rewrite Hr.
    rewrite (resolved_insert _ _ _ _ _ H), (resolved_split _ _ _ _ H).
    unfold resolved_with at 2 4. simpl. done.
  - (* deleteMessage rejected *)
    intros x. rewrite Hr.
    rewrite (resolved_insert _ _ _ _ _ H), (resolved_split _ _ _ _ H).
    unfold resolved_with at 2 4. simpl. done.
Qed.

Lemma inFlight_nonneg r : 0 ≤ inFlight r.
Proof. unfold inFlight. destruct (pc r) as [| | | |[]]; lia. Qed.

Lemma Counted_step e r r' :
  Counted max r → step max JSON_parse e r = Some r' → Counted max r'.
Proof.
  intros [Hc Hb Hr] Hstep. pose proof (inFlight_nonneg r) as Hnn.
  step_cases Hstep; split; unfold inFlight in *; simpl;
    repeat match goal with
           | E : pc r = _ |- _ => rewrite E in *
           | E : isAvailable _ _ = _ |- _ =>
               unfold isAvailable in E
           | Hi : jobs r !! _ = Some ?j |- _ =>
               rewrite (filter_insert_length _ _ j) by done
           end;
    rewrite ?filter_app_length, ?unsettledZ_phase; simpl;
    repeat match goal with
           | E : job_phase _ = _ |- _ => rewrite E
           end;
    try specialize (Hr eq_refl); try done; try lia.
Qed.

Lemma Inv_start : Inv max start.
Proof.
  split; simpl; auto.
  - intros x. split; [by intros ?%elem_of_nil|].
    by intros (i & j & Hi & _).
  - intros Hmax. split; simpl; try done.
Qed.

(** Hence they hold after every sequence of events. *)
Lemma Inv_run es r r' :
  Inv max r → run max JSON_parse es r = Some r' → Inv max r'.
Proof.
  revert r. induction es as [|e es IH]; simpl; intros r HI Hrun.
  - by injection Hrun as <-.
  - destruct (step max JSON_parse e r) as [r1|] eqn:Hs; [|done].
    apply (IH r1); [|done]. destruct HI as [Hj Hr Hc].
    split; eauto using jobs_ok_step, receipts_ok_step, Counted_step.
Qed.

End Invariant.

End ReceiverFacts.

Section ReceiverLoop.

Import SqsQueueReceiver ReceiverInvariant ReceiverFacts.

Variable max : Z.
Variable JSON_parse : string → option IQueueMessage.

(** C6.  In the receiver loop, [deleteMessage] is called on the receipt
    handle of a received message if and only if [processMessage] resolved
    on that message: at every moment the receipt handles given to
    [deleteMessage] are those of the messages whose processing resolved,
    each chain has called it once if its [processMessage] resolved and
    never if it rejected or is still pending. *)
Theorem receiver_deletes_iff_processed (es : list Event) (r : Receiver) :
  run max JSON_parse es start = Some r →
  (∀ x, x ∈ deletedReceipts r
        ↔ ∃ j, j ∈ jobs r ∧ job_processed j = Some true
               ∧ ReceiptHandle (job_message j) = x)
  ∧ Forall (λ j, job_deleteCalls j
                 = match job_processed j with
                   | Some true => 1%nat
                   | _ => 0%nat
                   end) (jobs r).
Proof.
  intros Hrun.
  destruct (Inv_run max JSON_parse es _ _ (Inv_start max) Hrun)
    as [Hj Hr _].
  split.
  - intros x. rewrite (Hr x). split.
    + intros (i & j & Hi & Hp & Hx). exists j.
      split; [|done]. apply list_elem_of_lookup. eauto.
    + intros (j & [i Hi]%list_elem_of_lookup & Hp & Hx).
      exists i, j. by repeat split.
  - eapply Forall_impl; [exact Hj|]. intros j Hok. unfold job_ok in Hok.
    destruct (job_phase j); intuition (repeat match goal with
      | H : job_processed _ = _ |- _ => rewrite H
      end; congruence).
Qed.


End ReceiverLoop.


Lemma receiver_deletes_iff_processed_witness :
  ∃ r, SqsQueueReceiver.run 2 ReceiverExample.parse ReceiverExample.events
         SqsQueueReceiver.start = Some r
       ∧ SqsQueueReceiver.deletedReceipts r = ["receipt-1"]
       ∧ ∀ x, x ∈ SqsQueueReceiver.deletedReceipts r
              ↔ ∃ j, j ∈ SqsQueueReceiver.jobs r
                     ∧ SqsQueueReceiver.job_processed j = Some true
                     ∧ SqsQueueReceiver.ReceiptHandle
                         (SqsQueueReceiver.job_message j) = x.
Proof.
  eexists. split; [reflexivity|]. split; [reflexivity|].
  apply (receiver_deletes_iff_processed 2 ReceiverExample.parse
           ReceiverExample.events).
  reflexivity.
Defined.


(** ** The sender *)

(** C8, as the code has it.  On a FIFO queue two [sendMessage] calls with
    the same group id get distinct deduplication ids exactly when the two
    calls read different values of [new Date().getTime()], whatever the
    payloads: the id is the group id, a dash and that number of
    milliseconds. *)
Theorem sendMessage_deduplication_ids_differ (q : SqsQueueBase)
    (groupId : string) (message1 message2 : IQueueMessage)
    (w1 w2 w1' w2' : World) :
  isFifo q = true →
  SqsQueueSender.sendMessage q groupId message1 w1 = (w1', Ok tt) →
  SqsQueueSender.sendMessage q groupId message2 w2 = (w2', Ok tt) →
  ∃ p1 p2 id1 id2,
    sqs w1' = sqs w1 ++ [p1] ∧ sqs w2' = sqs w2 ++ [p2]
    ∧ MessageDeduplicationId p1 = Some id1
    ∧ MessageDeduplicationId p2 = Some id2
    ∧ (id1 ≠ id2 ↔ clock w1 ≠ clock w2).
Proof.
  unfold SqsQueueSender.sendMessage, getQueueUrl, bind, newDate,
    SqsQueueSender.client_sendMessage, modify, ret, throw.
  intros Hfifo H1 H2. destruct (queueUrl q) as [url|]; [|done].
  injection H1 as <-. injection H2 as <-.
  unfold SqsQueueSender.sendMessageParams. rewrite Hfifo.
  eexists _, _, _, _. simpl. repeat split.
  - intros Hid Hclock. apply Hid. by rewrite Hclock.
  - unfold SqsQueueSender.deduplicationId. intros Hclock Heq.
    apply (inj (String.app groupId)) in Heq.
    apply (inj (String.app "-")) in Heq.
    by apply (inj pretty) in Heq.
Qed.

Lemma sendMessage_deduplication_ids_differ_witness :
  ∃ w1' w2' : World,
    SqsQueueSender.sendMessage Fixture.fifoQueue "tenant-1"
      (ProcessStream "stream-1") Fixture.world1 = (w1', Ok tt)
    ∧ SqsQueueSender.sendMessage Fixture.fifoQueue "tenant-1"
        (ProcessStream "stream-1")
        (set_clock (λ t, t + 1) Fixture.world1) = (w2', Ok tt)
    ∧ ∃ p1 p2 id1 id2,
        sqs w1' = sqs Fixture.world1 ++ [p1]
        ∧ sqs w2' = sqs (set_clock (λ t, t + 1) Fixture.world1) ++ [p2]
        ∧ MessageDeduplicationId p1 = Some id1
        ∧ MessageDeduplicationId p2 = Some id2
        ∧ (id1 ≠ id2
           ↔ clock Fixture.world1
             ≠ clock (set_clock (λ t, t + 1) Fixture.world1)).
Proof.
  eexists _, _. split; [reflexivity|]. split; [reflexivity|].
  apply (sendMessage_deduplication_ids_differ Fixture.fifoQueue "tenant-1"
           (ProcessStream "stream-1") (ProcessStream "stream-1")
           Fixture.world1 (set_clock (λ t, t + 1) Fixture.world1));
    reflexivity.
Defined.

(** C8 fails as stated: two sends of the same payload under the same group
    id that read the same millisecond get the same deduplication id. *)
Lemma sendMessage_same_millisecond_same_id :
  ∃ (w1 w2 : World) (p1 p2 : SendMessageRequest),
    SqsQueueSender.sendMessage Fixture.fifoQueue "tenant-1"
      (ProcessStream "stream-1") Fixture.world1 = (w1, Ok tt)
    ∧ SqsQueueSender.sendMessage Fixture.fifoQueue "tenant-1"
        (ProcessStream "stream-1") w1 = (w2, Ok tt)
    ∧ sqs w2 = [p1; p2]
    ∧ MessageDeduplicationId p1 = Some "tenant-1-1700000000000"
    ∧ MessageDeduplicationId p2 = Some "tenant-1-1700000000000".
Proof.
  eexists _, _, _, _. split; [reflexivity|]. split; [reflexivity|].
  split; [reflexivity|]. split; reflexivity.
Qed.

(** ** SQL updates *)

Section SqlFacts.

Context {A : Type}.

Lemma filter_map_update (p q : A → bool) (f : A → A) (l : list A) :
  (∀ a, q (f a) = q a) →
  List.filter q (map (λ a, if p a then f a else a) l)
  = map (λ a, if p a then f a else a) (List.filter q l).
Proof.
  intros Hq. induction l as [|a l IH]; simpl; [done|].
  destruct (p a) eqn:Hp; rewrite ?Hq; destruct (q a); simpl;
    rewrite ?Hp, IH; done.
Qed.

Lemma map_update_none (p : A → bool) (f : A → A) (l : list A) :
  List.filter p l = [] → map (λ a, if p a then f a else a) l = l.
Proof.
  induction l as [|a l IH]; simpl; [done|].
  destruct (p a); [done|]. intros H. by rewrite IH.
Qed.

Lemma find_filter (p : A → bool) (l : list A) :
  List.find p l = head (List.filter p l).
Proof.
  induction l as [|a l IH]; simpl; [done|]. by destruct (p a).
Qed.

Lemma filter_negb_none (p : A → bool) (l : list A) :
  List.filter p (List.filter (λ a, negb (p a)) l) = [].
Proof.
  induction l as [|a l IH]; simpl; [done|].
  destruct (p a) eqn:Hp; simpl; by rewrite ?Hp.
Qed.

End SqlFacts.

Lemma set_runs_same (w : World) : set_runs (λ _, runs w) w = w.
Proof. by destruct w. Qed.

(** ** The run repository *)

(** C10.  When [runId] names one run row, [markRunError] succeeds and that
    row gets the state ERROR, the structured error and [processedAt] set to
    the current time, the rows of the other runs are kept as they are; when
    no run row has that id, [markRunError] throws and changes nothing. *)
Theorem markRunError_sets_error_and_processedAt (w : World) (runId : string)
    (error : ErrorInfo) :
  (∀ r, List.filter (λ r, String.eqb (run_id r) runId) (runs w) = [r] →
     ∃ w' r',
       IntegrationRunRepository.markRunError runId error w = (w', Ok tt)
       ∧ List.filter (λ r, String.eqb (run_id r) runId) (runs w') = [r']
       ∧ run_state r' = RUN_ERROR
       ∧ run_error r' = Some error
       ∧ run_processedAt r' = Some (clock w)
       ∧ List.filter (λ r, negb (String.eqb (run_id r) runId)) (runs w')
         = List.filter (λ r, negb (String.eqb (run_id r) runId)) (runs w))
  ∧ (List.filter (λ r, String.eqb (run_id r) runId) (runs w) = [] →
     ∃ e, IntegrationRunRepository.markRunError runId error w = (w, Throw e)).
Proof.
  unfold IntegrationRunRepository.markRunError,
    IntegrationRunRepository.update_runs, bind, sql_update. split.
  - intros r Hr. rewrite Hr. simpl.
    eexists _, _. split; [reflexivity|]. simpl.
    rewrite filter_map_update by done. rewrite Hr. simpl.
    assert (Hid : String.eqb (run_id r) runId = true).
    { assert (Hin : In r (List.filter (λ r, String.eqb (run_id r) runId)
                            (runs w))) by (rewrite Hr; by left).
      by apply List.filter_In in Hin as [_ ?]. }
    rewrite Hid. repeat split.
    rewrite filter_map_update by done.
    apply map_update_none, filter_negb_none.
  - intros Hr. rewrite Hr, (map_update_none _ _ _ Hr), set_runs_same.
    by eexists.
Qed.

Lemma markRunError_sets_error_and_processedAt_witness :
  (∃ w' r',
     IntegrationRunRepository.markRunError "run-1" Fixture.structuredError
       Fixture.world1 = (w', Ok tt)
     ∧ List.filter (λ r, String.eqb (run_id r) "run-1") (runs w') = [r']
     ∧ run_state r' = RUN_ERROR
     ∧ run_error r' = Some Fixture.structuredError
     ∧ run_processedAt r' = Some (clock Fixture.world1)
     ∧ List.filter (λ r, negb (String.eqb (run_id r) "run-1")) (runs w')
       = List.filter (λ r, negb (String.eqb (run_id r) "run-1"))
           (runs Fixture.world1))
  ∧ ∃ e, IntegrationRunRepository.markRunError "run-2"
           Fixture.structuredError Fixture.world1
         = (Fixture.world1, Throw e).
Proof.
  split.
  - apply (proj1 (markRunError_sets_error_and_processedAt Fixture.world1
                    "run-1" Fixture.structuredError) Fixture.run1).
    reflexivity.
  - apply (proj2 (markRunError_sets_error_and_processedAt Fixture.world1
                    "run-2" Fixture.structuredError)).
    reflexivity.
Defined.

(** C4 fails as stated: after two [publishStream] calls with the same run
    and the same identifier the run has two stream rows with that
    identifier. *)
Lemma publishStream_twice_two_rows :
  ∃ (w1 w2 : World) (id1 id2 : string),
    IntegrationRunRepository.publishStream "run-1" Fixture.rootStream
      Fixture.world0 = (w1, Ok id1)
    ∧ IntegrationRunRepository.publishStream "run-1" Fixture.rootStream w1
      = (w2, Ok id2)
    ∧ id1 ≠ id2
    ∧ length (List.filter (same_stream "run-1" "posts") (runStreams w2))
      = 2%nat.
Proof.
  eexists _, _, _, _. split; [reflexivity|]. split; [reflexivity|].
  split; [|reflexivity]. by vm_compute.
Qed.

Lemma uuid_of_inj (n m : N) : uuid_of n = uuid_of m → n = m.
Proof.
  unfold uuid_of. intros H. apply (inj (String.app "uuid-")) in H.
  by apply (inj pretty) in H.
Qed.

(** One call of [publishStream] on a run that has one row. *)
Lemma publishStream_once (w : World) (runId : string)
    (stream : IIntegrationStream) (r : Run) :
  List.filter (λ r, String.eqb (run_id r) runId) (runs w) = [r] →
  IntegrationRunRepository.publishStream runId stream w
  = (set_runStreams
       (λ l, l ++ [IntegrationRunRepository.new_stream_row
                     (uuid_of (uuidSeq w)) runId stream (clock w) r])
       (set_uuidSeq N.succ w),
     Ok (uuid_of (uuidSeq w))).
Proof.
  intros Hr.
  unfold IntegrationRunRepository.publishStream, generateUUIDv1, bind,
    IntegrationRunRepository.insert_runStreams.
  simpl. by rewrite Hr.
Qed.

(** C4, as the code has it.  [publishStream] of the run repository does not
    look for a row with the same run and identifier: on a run that exists
    every call generates a new id, appends one PENDING row with it and
    returns the id.  After two calls with the same run and identifier the
    run has two more rows with that identifier, under two different ids. *)
Theorem publishStream_never_dedupes (w : World) (runId : string)
    (stream : IIntegrationStream) (r : Run) :
  List.filter (λ r, String.eqb (run_id r) runId) (runs w) = [r] →
  ∃ w1 w2 row1 row2,
    IntegrationRunRepository.publishStream runId stream w
    = (w1, Ok (stream_id row1))
    ∧ IntegrationRunRepository.publishStream runId stream w1
      = (w2, Ok (stream_id row2))
    ∧ runStreams w1 = runStreams w ++ [row1]
    ∧ runStreams w2 = runStreams w ++ [row1; row2]
    ∧ stream_id row1 ≠ stream_id row2
    ∧ Forall (λ row, stream_runId row = runId
                     ∧ stream_identifier row = identifier stream
                     ∧ stream_state row = STREAM_PENDING) [row1; row2]
    ∧ length (List.filter (same_stream runId (identifier stream))
                (runStreams w2))
      = S (S (length (List.filter (same_stream runId (identifier stream))
                        (runStreams w)))).
Proof.
  intros Hr.
  set (row1 := IntegrationRunRepository.new_stream_row (uuid_of (uuidSeq w))
                 runId stream (clock w) r).
  set (w1 := set_runStreams (λ l, l ++ [row1]) (set_uuidSeq N.succ w)).
  set (row2 := IntegrationRunRepository.new_stream_row
                 (uuid_of (uuidSeq w1)) runId stream (clock w1) r).
  set (w2 := set_runStreams (λ l, l ++ [row2]) (set_uuidSeq N.succ w1)).
  exists w1, w2, row1, row2.
  split; [exact (publishStream_once w runId stream r Hr)|].
  split; [exact (publishStream_once w1 runId stream r Hr)|].
  split; [done|]. split; [simpl; by rewrite <- app_assoc|].
  split; [simpl; intros H%uuid_of_inj; lia|].
  split; [by repeat constructor|].
  simpl. rewrite <- app_assoc, List.filter_app, length_app. simpl.
  unfold same_stream at 2 3. simpl. rewrite !String.eqb_refl. simpl. lia.
Qed.

Lemma publishStream_never_dedupes_witness :
  ∃ w1 w2 row1 row2,
    IntegrationRunRepository.publishStream "run-1" Fixture.rootStream
      Fixture.world1 = (w1, Ok (stream_id row1))
    ∧ IntegrationRunRepository.publishStream "run-1" Fixture.rootStream w1
      = (w2, Ok (stream_id row2))
    ∧ runStreams w1 = runStreams Fixture.world1 ++ [row1]
    ∧ runStreams w2 = runStreams Fixture.world1 ++ [row1; row2]
    ∧ stream_id row1 ≠ stream_id row2
    ∧ Forall (λ row, stream_runId row = "run-1"
                     ∧ stream_identifier row = identifier Fixture.rootStream
                     ∧ stream_state row = STREAM_PENDING) [row1; row2]
    ∧ length (List.filter
                (same_stream "run-1" (identifier Fixture.rootStream))
                (runStreams w2))
      = S (S (length (List.filter
                        (same_stream "run-1" (identifier Fixture.rootStream))
                        (runStreams Fixture.world1)))).
Proof.
  apply (publishStream_never_dedupes Fixture.world1 "run-1"
           Fixture.rootStream Fixture.run1).
  reflexivity.
Defined.

(** ** Settings *)

Lemma filter_eqb_head {A} (key : A → string) (x : string) (l : list A)
    (a : A) :
  List.filter (λ b, String.eqb (key b) x) l = [a] → key a = x.
Proof.
  intros H.
  assert (Hin : In a (List.filter (λ b, String.eqb (key b) x) l))
    by (rewrite H; by left).
  apply List.filter_In in Hin as [_ Hin]. by apply String.eqb_eq.
Qed.

(** What [update "integrations" set settings = settings || {k: v}] leaves
    when the [where] clause selects the integration [i], whose settings are
    the object [m]. *)
Lemma update_integration_settings_merge (w : World) (iid : option string)
    (i : Integration) (m : gmap string Json) (k : string) (v : Json) :
  (∃ x, iid = Some x
        ∧ List.filter (λ j, String.eqb (int_id j) x) (integrations w) = [i]) →
  int_settings i = Some (JObject m) →
  ∃ w' i',
    bind (IntegrationRunRepository.update_integrations
            (λ _ j, sql_eq_nullable (int_id j) iid)
            (IntegrationRunRepository.set_int_settings (JObject {[k := v]})))
         (λ rowCount, RepositoryBase.checkUpdateRowCount rowCount 1) w
    = (w', Ok tt)
    ∧ List.filter (λ j, String.eqb (int_id j) (int_id i)) (integrations w')
      = [i']
    ∧ int_settings i' = Some (JObject (<[k:=v]> m))
    ∧ List.filter (λ j, negb (String.eqb (int_id j) (int_id i)))
        (integrations w')
      = List.filter (λ j, negb (String.eqb (int_id j) (int_id i)))
          (integrations w)
    ∧ runs w' = runs w ∧ runStreams w' = runStreams w.
Proof.
  intros (x & -> & Hi) Hm.
  pose proof (filter_eqb_head _ _ _ _ Hi) as Hid. subst x.
  unfold bind, IntegrationRunRepository.update_integrations, sql_update.
  simpl. rewrite Hi. simpl. eexists _, _. split; [reflexivity|]. simpl.
  rewrite !filter_map_update by done. rewrite Hi. simpl.
  rewrite String.eqb_refl. split; [reflexivity|]. simpl. rewrite Hm. simpl.
  rewrite insert_union_singleton_l. repeat split.
  apply map_update_none, filter_negb_none.
Qed.

(** C5.  When the settings of the integration are a JSON object,
    [updateIntegrationSettings({k: v})] stores on the owning integration an
    object in which [k] maps to [v] and every other key has the value it
    had; no other integration is changed.  This holds of the run
    repository's method, and of the method of the context of a stream. *)
Theorem updateIntegrationSettings_shallow_merge (w : World)
    (i : Integration) (m : gmap string Json) (k : string) (v : Json) :
  int_settings i = Some (JObject m) →
  List.filter (λ j, String.eqb (int_id j) (int_id i)) (integrations w) = [i] →
  let stored (w' : World) :=
    ∃ i' m',
      List.filter (λ j, String.eqb (int_id j) (int_id i)) (integrations w')
      = [i']
      ∧ int_settings i' = Some (JObject m')
      ∧ m' !! k = Some v
      ∧ (∀ k', k' ≠ k → m' !! k' = m !! k')
      ∧ List.filter (λ j, negb (String.eqb (int_id j) (int_id i)))
          (integrations w')
        = List.filter (λ j, negb (String.eqb (int_id j) (int_id i)))
            (integrations w) in
  (∀ runId r,
     List.find (λ r, String.eqb (run_id r) runId) (runs w) = Some r →
     run_integrationId r = int_id i →
     ∃ w', IntegrationRunRepository.updateIntegrationSettings runId
             (JObject {[k := v]}) w = (w', Ok tt)
           ∧ stored w')
  ∧ (∀ dataSender streamSender streamId streamInfo s,
       List.find (λ s, String.eqb (stream_id s) streamId) (runStreams w)
       = Some s →
       stream_integrationId s = int_id i →
       ∃ w', IntegrationStreamService.contextCall
               IntegrationStreamRepository.repo dataSender streamSender
               streamId streamInfo
               (CallUpdateIntegrationSettings (JObject {[k := v]})) w
             = (w', Ok tt)
             ∧ stored w').
Proof.
  intros Hm Hi stored. split.
  - intros runId r Hr Hri.
    destruct (update_integration_settings_merge w (Some (int_id i)) i m k v)
      as (w' & i' & Hrun & Hf & Hs & Hrest & _); [by eauto|done|].
    exists w'. split.
    + rewrite <- Hrun.
      unfold IntegrationRunRepository.updateIntegrationSettings, bind,
        IntegrationRunRepository.update_integrations, sql_select_first.
      by rewrite Hr, <- Hri.
    + exists i', (<[k:=v]> m). repeat split; try done.
      * apply lookup_insert_eq.
      * intros k' Hk. by apply lookup_insert_ne.
  - intros dataSender streamSender streamId streamInfo s Hs Hsi.
    destruct (update_integration_settings_merge w (Some (int_id i)) i m k v)
      as (w' & i' & Hrun & Hf & Hset & Hrest & _); [by eauto|done|].
    exists w'. split.
    + assert (Hcall :
        IntegrationStreamRepository.updateIntegrationSettings streamId
          (JObject {[k := v]}) w = (w', Ok tt)).
      { rewrite <- Hrun.
        unfold IntegrationStreamRepository.updateIntegrationSettings, bind,
          IntegrationRunRepository.update_integrations, sql_select_first.
        by rewrite Hs, <- Hsi. }
      simpl. unfold IntegrationStreamService.updateIntegrationSettings,
        try_catch. simpl. by rewrite Hcall.
    + exists i', (<[k:=v]> m). repeat split; try done.
      * apply lookup_insert_eq.
      * intros k' Hk. by apply lookup_insert_ne.
Qed.

Lemma updateIntegrationSettings_shallow_merge_witness :
  (∃ w' i' m',
     IntegrationRunRepository.updateIntegrationSettings "run-1"
       (JObject {["lastSync" := JString "2024-01-01"]}) Fixture.world1
     = (w', Ok tt)
     ∧ List.filter (λ j, String.eqb (int_id j) "int-1") (integrations w')
       = [i']
     ∧ int_settings i' = Some (JObject m')
     ∧ m' !! "lastSync" = Some (JString "2024-01-01")
     ∧ m' !! "posts" = Some (JArray []))
  ∧ (∃ w' i' m',
       IntegrationStreamService.contextCall IntegrationStreamRepository.repo
         (Queue.dataWorkerSender Fixture.fifoQueue)
         (Queue.streamWorkerSender Fixture.fifoQueue)
         "stream-1" Fixture.streamInfo1
         (CallUpdateIntegrationSettings
            (JObject {["lastSync" := JString "2024-01-01"]})) Fixture.world1
       = (w', Ok tt)
       ∧ List.filter (λ j, String.eqb (int_id j) "int-1") (integrations w')
         = [i']
       ∧ int_settings i' = Some (JObject m')
       ∧ m' !! "lastSync" = Some (JString "2024-01-01")
       ∧ m' !! "posts" = Some (JArray [])).
Proof.
  destruct (updateIntegrationSettings_shallow_merge Fixture.world1
              Fixture.int1 Fixture.settings1 "lastSync"
              (JString "2024-01-01") eq_refl eq_refl) as [Hrun Hstream].
  split.
  - destruct (Hrun "run-1" Fixture.run1 eq_refl eq_refl)
      as (w' & Hcall & i' & m' & Hf & Hs & Hk & Hother & _).
    exists w', i', m'. repeat split; try done.
    rewrite Hother; [reflexivity | discriminate].
  - destruct (Hstream (Queue.dataWorkerSender Fixture.fifoQueue)
                (Queue.streamWorkerSender Fixture.fifoQueue)
                "stream-1" Fixture.streamInfo1 Fixture.stream1
                eq_refl eq_refl)
      as (w' & Hcall & i' & m' & Hf & Hs & Hk & Hother & _).
    exists w', i', m'. repeat split; try done.
    rewrite Hother; [reflexivity | discriminate].
Defined.

(** ** What the methods of the context keep *)

Section Keeping.

Variables streamId runId : string.
Variable retries : Z.

#[local] Abbreviation Tracked := (Tracked streamId runId retries).
#[local] Abbreviation Keeps := (Keeps streamId runId retries).

(** The combinators of the monad. *)
Lemma Keeps_ret {A} (a : A) : Keeps (ret a).
Proof. intros w w' r H [= <- _]. done. Qed.

Lemma Keeps_throw {A} (e : Err) : Keeps (@throw A e).
Proof. intros w w' r H [= <- _]. done. Qed.

Lemma Keeps_bind {A B} (m : M A) (k : A → M B) :
  Keeps m → (∀ a, Keeps (k a)) → Keeps (bind m k).
Proof.
  intros Hm Hk w w' r HT. unfold bind.
  destruct (m w) as [w1 [a|e]] eqn:E.
  - intros Hka. exact (Hk a w1 w' r (Hm _ _ _ HT E) Hka).
  - intros [= <- _]. exact (Hm _ _ _ HT E).
Qed.

Lemma Keeps_try_catch {A} (m : M A) (h : Err → M A) :
  Keeps m → (∀ e, Keeps (h e)) → Keeps (try_catch m h).
Proof.
  intros Hm Hh w w' r HT. unfold try_catch.
  destruct (m w) as [w1 [a|e]] eqn:E.
  - intros [= <- _]. exact (Hm _ _ _ HT E).
  - intros Hhe. exact (Hh e w1 w' r (Hm _ _ _ HT E) Hhe).
Qed.

Lemma Keeps_newDate : Keeps newDate.
Proof. intros w w' r H [= <- _]. done. Qed.

Lemma Keeps_checkUpdateRowCount n k :
  Keeps (RepositoryBase.checkUpdateRowCount n k).
Proof.
  unfold RepositoryBase.checkUpdateRowCount.
  destruct (Nat.eqb n k); [apply Keeps_ret | apply Keeps_throw].
Qed.

(** Updates that leave the ids (and, on streams, the retries) alone. *)
Lemma Keeps_update_runs where_ set_ :
  (∀ now r, run_id (set_ now r) = run_id r) →
  Keeps (IntegrationRunRepository.update_runs where_ set_).
Proof.
  intros Hid w w' r [Hs [r0 Hr] Hf].
  unfold IntegrationRunRepository.update_runs, sql_update.
  intros [= <- _]. split; simpl; [done| |done].
  rewrite filter_map_update by (intros a; by rewrite Hid).
  rewrite Hr. simpl. eauto.
Qed.

Lemma Keeps_update_runStreams where_ set_ :
  (∀ now s, stream_id (set_ now s) = stream_id s) →
  (∀ now s, stream_retries (set_ now s) = stream_retries s) →
  Keeps (IntegrationStreamRepository.update_runStreams where_ set_).
Proof.
  intros Hid Hre w w' r [(s & Hs & Hn) Hr Hf].
  unfold IntegrationStreamRepository.update_runStreams, sql_update.
  intros [= <- _]. split; simpl; [|done|done].
  rewrite filter_map_update by (intros a; by rewrite Hid).
  rewrite Hs. simpl. eexists. split; [reflexivity|].
  destruct (where_ s); by rewrite ?Hre.
Qed.

Lemma Keeps_update_integrations where_ set_ :
  Keeps (IntegrationRunRepository.update_integrations where_ set_).
Proof.
  intros w w' r [Hs Hr Hf].
  unfold IntegrationRunRepository.update_integrations, sql_update.
  intros [= <- _]. by split.
Qed.

Lemma Keeps_markRunError rid error :
  Keeps (IntegrationRunRepository.markRunError rid error).
Proof.
  apply Keeps_bind; [by apply Keeps_update_runs|].
  intros n. apply Keeps_checkUpdateRowCount.
Qed.

Lemma Keeps_markStreamError sid error :
  Keeps (IntegrationStreamRepository.markStreamError sid error).
Proof.
  apply Keeps_bind; [by apply Keeps_update_runStreams|].
  intros n. apply Keeps_checkUpdateRowCount.
Qed.

Lemma Keeps_markStreamInProgress sid :
  Keeps (IntegrationStreamRepository.markStreamInProgress sid).
Proof.
  apply Keeps_bind; [by apply Keeps_update_runStreams|].
  intros n. apply Keeps_checkUpdateRowCount.
Qed.

Lemma Keeps_updateIntegrationSettings sid settings :
  Keeps (IntegrationStreamRepository.updateIntegrationSettings sid settings).
Proof.
  apply Keeps_bind; [by apply Keeps_update_integrations|].
  intros n. apply Keeps_checkUpdateRowCount.
Qed.

Lemma filter_map_none {A B} (q : B → bool) (g : A → B) (l : list A) :
  (∀ a, q (g a) = false) → List.filter q (map g l) = [].
Proof.
  intros Hq. induction l as [|a l IH]; simpl; [done|]. by rewrite Hq.
Qed.

Lemma Tracked_succ (w : World) :
  Tracked w → Tracked (set_uuidSeq N.succ w).
Proof.
  intros [Hs Hr Hf]. split; simpl; [done|done|].
  intros n Hn. apply Hf. lia.
Qed.

(** Insertions: the new row has an id that was not generated before. *)
Lemma Keeps_publishStream parentId rid identifier data :
  Keeps (IntegrationStreamRepository.publishStream parentId rid identifier
           data).
Proof.
  intros w w' r HT.
  unfold IntegrationStreamRepository.publishStream, generateUUIDv1, bind.
  simpl.
  set (rows := map _ _).
  assert (HT1 : Tracked (set_runStreams (λ l, l ++ rows)
                           (set_uuidSeq N.succ w))).
  { pose proof (Tracked_succ w HT) as [(s & Hs & Hn) Hr Hf].
    split; simpl; [|done|done].
    rewrite List.filter_app. unfold rows.
    rewrite filter_map_none, app_nil_r; [by eauto|].
    intros a.
    change (String.eqb (uuid_of (uuidSeq w)) streamId = false).
    apply (proj2 (String.eqb_neq _ _)).
    apply (tracked_fresh _ _ _ _ HT). lia. }
  intros Hrun.
  destruct (RepositoryBase.checkUpdateRowCount (length rows) 1 _)
    as [w1 [[]|e]] eqn:E.
  - pose proof (Keeps_checkUpdateRowCount _ _ _ _ _ HT1 E).
    unfold ret in Hrun. by injection Hrun as <- _.
  - pose proof (Keeps_checkUpdateRowCount _ _ _ _ _ HT1 E).
    by injection Hrun as <- _.
Qed.

Lemma Keeps_publishData sid data :
  Keeps (IntegrationStreamRepository.publishData sid data).
Proof.
  intros w w' r HT.
  unfold IntegrationStreamRepository.publishData, generateUUIDv1, bind.
  simpl.
  set (rows := map _ _).
  assert (HT1 : Tracked (set_streamData (λ l, l ++ rows)
                           (set_uuidSeq N.succ w))).
  { pose proof (Tracked_succ w HT) as [Hs Hr Hf]. by split. }
  intros Hrun.
  destruct (RepositoryBase.checkUpdateRowCount (length rows) 1 _)
    as [w1 [[]|e]] eqn:E.
  - pose proof (Keeps_checkUpdateRowCount _ _ _ _ _ HT1 E).
    unfold ret in Hrun. by injection Hrun as <- _.
  - pose proof (Keeps_checkUpdateRowCount _ _ _ _ _ HT1 E).
    by injection Hrun as <- _.
Qed.

Lemma Keeps_sendMessage q groupId message :
  Keeps (SqsQueueSender.sendMessage q groupId message).
Proof.
  apply Keeps_bind.
  - unfold getQueueUrl. destruct (queueUrl q);
      [apply Keeps_ret | apply Keeps_throw].
  - intros url. apply Keeps_bind; [apply Keeps_newDate|].
    intros t w w' r [Hs Hr Hf] [= <- _]. by split.
Qed.

Section Handler.

Variables streamQueue dataQueue : SqsQueueBase.
Variable streamInfo : IStreamData.

Let repo := IntegrationStreamRepository.repo.
Let dataSender := Queue.dataWorkerSender dataQueue.
Let streamSender := Queue.streamWorkerSender streamQueue.

(** Every method of the context, and so every handler, whether it
    returns or throws. *)
Lemma Keeps_contextCall sid call :
  Keeps (IntegrationStreamService.contextCall repo dataSender
           streamSender sid streamInfo call).
Proof.
  destruct call; simpl.
  - apply Keeps_try_catch.
    + apply Keeps_bind; [apply Keeps_publishData|].
      intros id. apply Keeps_sendMessage.
    + intros e. apply Keeps_bind; [apply Keeps_markRunError|].
      intros _. apply Keeps_throw.
  - apply Keeps_try_catch.
    + apply Keeps_bind; [apply Keeps_publishStream|].
      intros id. apply Keeps_sendMessage.
    + intros e. apply Keeps_bind; [apply Keeps_markRunError|].
      intros _. apply Keeps_throw.
  - apply Keeps_try_catch.
    + apply Keeps_updateIntegrationSettings.
    + intros e. apply Keeps_bind; [apply Keeps_markRunError|].
      intros _. apply Keeps_throw.
  - apply Keeps_markStreamError.
  - apply Keeps_markRunError.
Qed.

Lemma Keeps_runHandler sid h :
  Keeps (IntegrationStreamService.runHandler repo dataSender
           streamSender sid streamInfo h).
Proof.
  induction h as [|e|call k IH|elapsed k IH]; simpl.
  - apply Keeps_ret.
  - apply Keeps_throw.
  - intros w w' r HT.
    destruct (IntegrationStreamService.contextCall _ _ _ _ _ _ w)
      as [w1 r1] eqn:E.
    apply IH. exact (Keeps_contextCall _ _ _ _ _ HT E).
  - intros w w' r [Hs Hr Hf]. apply IH. by split.
Qed.

End Handler.

End Keeping.

(** ** Running the monad *)

Lemma bind_ok {A B} (m : M A) (k : A → M B) (w w' : World) (a : A) :
  m w = (w', Ok a) → bind m k w = k a w'.
Proof. unfold bind. by intros ->. Qed.

Lemma bind_throw {A B} (m : M A) (k : A → M B) (w w' : World) (e : Err) :
  m w = (w', Throw e) → bind m k w = (w', Throw e).
Proof. unfold bind. by intros ->. Qed.

Lemma try_catch_throw {A} (m : M A) (h : Err → M A) (w w' : World)
    (e : Err) :
  m w = (w', Throw e) → try_catch m h w = h e w'.
Proof. unfold try_catch. by intros ->. Qed.

(** An update of the one row of a stream, and of the one row of a run. *)
Lemma update_one_stream (w : World) (streamId : string) (s : Stream)
    (set_ : Z → Stream → Stream) :
  List.filter (λ s, String.eqb (stream_id s) streamId) (runStreams w) = [s] →
  (∀ now s, stream_id (set_ now s) = stream_id s) →
  ∃ w',
    bind (IntegrationStreamRepository.update_runStreams
            (λ s, String.eqb (stream_id s) streamId) set_)
         (λ rowCount, RepositoryBase.checkUpdateRowCount rowCount 1) w
    = (w', Ok tt)
    ∧ List.filter (λ s, String.eqb (stream_id s) streamId) (runStreams w')
      = [set_ (clock w) s]
    ∧ length (runStreams w') = length (runStreams w)
    ∧ runs w' = runs w ∧ streamData w' = streamData w
    ∧ integrations w' = integrations w ∧ sqs w' = sqs w
    ∧ clock w' = clock w ∧ uuidSeq w' = uuidSeq w.
Proof.
  intros Hs Hid.
  unfold bind, IntegrationStreamRepository.update_runStreams, sql_update.
  rewrite Hs. simpl. eexists. split; [reflexivity|]. simpl.
  rewrite filter_map_update by (intros a; by rewrite Hid).
  rewrite Hs. simpl. rewrite (filter_eqb_head _ _ _ _ Hs), String.eqb_refl.
  rewrite length_map. by repeat split.
Qed.

Lemma update_one_run (w : World) (runId : string) (r : Run)
    (set_ : Z → Run → Run) :
  List.filter (λ r, String.eqb (run_id r) runId) (runs w) = [r] →
  (∀ now r, run_id (set_ now r) = run_id r) →
  ∃ w',
    bind (IntegrationRunRepository.update_runs
            (λ r, String.eqb (run_id r) runId) set_)
         (λ rowCount, RepositoryBase.checkUpdateRowCount rowCount 1) w
    = (w', Ok tt)
    ∧ List.filter (λ r, String.eqb (run_id r) runId) (runs w')
      = [set_ (clock w) r]
    ∧ runStreams w' = runStreams w ∧ streamData w' = streamData w
    ∧ integrations w' = integrations w ∧ sqs w' = sqs w
    ∧ clock w' = clock w ∧ uuidSeq w' = uuidSeq w.
Proof.
  intros Hr Hid.
  unfold bind, IntegrationRunRepository.update_runs, sql_update.
  rewrite Hr. simpl. eexists. split; [reflexivity|]. simpl.
  rewrite filter_map_update by (intros a; by rewrite Hid).
  rewrite Hr. simpl. rewrite (filter_eqb_head _ _ _ _ Hr), String.eqb_refl.
  by repeat split.
Qed.

(** What [getStreamData] returned is what the rows hold. *)
Lemma getStreamData_fields (w w' : World) (streamId : string)
    (streamInfo : IStreamData) (s : Stream) :
  IntegrationStreamRepository.getStreamData streamId w
  = (w', Ok (Some streamInfo)) →
  List.filter (λ s, String.eqb (stream_id s) streamId) (runStreams w) = [s] →
  w' = w
  ∧ sd_retries streamInfo = stream_retries s
  ∧ sd_runId streamInfo = stream_runId s.
Proof.
  unfold IntegrationStreamRepository.getStreamData. intros H Hs.
  injection H as <- H. split; [done|].
  rewrite find_filter, Hs in H. simpl in H.
  destruct (List.find _ (runs w)) as [r|] eqn:Hr; simpl in H; [|done].
  destruct (List.find _ (integrations w)) as [i|]; simpl in H; [|done].
  injection H as <-. simpl. split; [done|].
  apply List.find_some in Hr as [_ Hr]. by apply String.eqb_eq.
Qed.

(** ** [processStream] *)

Section ProcessStream.

#[local] Abbreviation repo := IntegrationStreamRepository.repo.

(** C3.  When the stream exists and its run is in a state other than
    PROCESSING, [processStream] marks the stream ERROR with the location
    [check-stream-run-state] and returns; the outcome is the same whatever
    the registered handlers, the settings and the senders are, and no
    stream row, data row or queue message is added. *)
Theorem processStream_run_not_processing (w : World) (streamId : string)
    (streamInfo : IStreamData) (s : Stream) :
  IntegrationStreamRepository.getStreamData streamId w
  = (w, Ok (Some streamInfo)) →
  List.filter (λ s, String.eqb (stream_id s) streamId) (runStreams w)
  = [s] →
  sd_runState streamInfo ≠ RUN_PROCESSING →
  ∃ w' s',
    (∀ dataSender streamSender settings services,
       IntegrationStreamService.processStream repo dataSender streamSender
         settings services streamId w = (w', Ok tt))
    ∧ List.filter (λ s, String.eqb (stream_id s) streamId) (runStreams w')
      = [s']
    ∧ stream_state s' = STREAM_ERROR
    ∧ stream_error s'
      = Some {| location := "check-stream-run-state";
                message := "Run is not in processing state!";
                metadata := MdActualState (sd_runState streamInfo) |}
    ∧ length (runStreams w') = length (runStreams w)
    ∧ streamData w' = streamData w
    ∧ sqs w' = sqs w
    ∧ runs w' = runs w.
Proof.
  intros Hget Hs Hstate.
  destruct (update_one_stream w streamId s
              (λ now s, IntegrationStreamRepository.with_stream STREAM_ERROR
                          (stream_delayedUntil s) (Some now)
                          (stream_retries s)
                          (Some {| location := "check-stream-run-state";
                                   message :=
                                     "Run is not in processing state!";
                                   metadata :=
                                     MdActualState
                                       (sd_runState streamInfo) |})
                          now s) Hs)
    as (w' & Hrun & Hf & Hlen & Hruns & Hdata & _ & Hsqs & _); [done|].
  eexists w', _. split; [|split; [exact Hf|]]; [|by repeat split].
  intros dataSender streamSender settings services.
  unfold IntegrationStreamService.processStream.
  rewrite (bind_ok _ _ _ _ _ Hget).
  assert (Hneg : negb (run_state_eqb (sd_runState streamInfo)
                         RUN_PROCESSING) = true)
    by (by destruct (sd_runState streamInfo)).
  rewrite Hneg. exact Hrun.
Qed.

Variable WORKER_SETTINGS : IWorkerSettings.
Variable INTEGRATION_SERVICES : list IIntegrationService.
Variables streamQueue dataQueue : SqsQueueBase.

#[local] Abbreviation dataSender := (Queue.dataWorkerSender dataQueue).
#[local] Abbreviation streamSender :=
  (Queue.streamWorkerSender streamQueue).
#[local] Abbreviation processStream :=
  (IntegrationStreamService.processStream repo dataSender streamSender
     WORKER_SETTINGS INTEGRATION_SERVICES).
#[local] Abbreviation runHandler :=
  (IntegrationStreamService.runHandler repo dataSender streamSender).

(** From the pick-up of a stream to the moment its handler has thrown. *)
Lemma processStream_handler_threw (w w1 w2 : World) (streamId : string)
    (streamInfo : IStreamData) (s : Stream) (r : Run)
    (integrationService : IIntegrationService) (err : Err) :
  IntegrationStreamRepository.getStreamData streamId w
  = (w, Ok (Some streamInfo)) →
  List.filter (λ s, String.eqb (stream_id s) streamId) (runStreams w)
  = [s] →
  List.filter (λ r, String.eqb (run_id r) (sd_runId streamInfo)) (runs w)
  = [r] →
  (∀ n, (uuidSeq w ≤ n)%N → uuid_of n ≠ streamId) →
  sd_runState streamInfo = RUN_PROCESSING →
  List.filter (λ i, String.eqb (svc_type i) (sd_integrationType streamInfo))
    INTEGRATION_SERVICES = [integrationService] →
  IntegrationStreamRepository.markStreamInProgress streamId w
  = (w1, Ok tt) →
  runHandler streamId streamInfo
    (svc_processStream integrationService
       (IntegrationStreamService.context streamInfo)) w1
  = (w2, Throw err) →
  processStream streamId w
  = IntegrationStreamService.onProcessError repo WORKER_SETTINGS streamId
      streamInfo err w2
  ∧ Tracked streamId (sd_runId streamInfo) (sd_retries streamInfo) w2.
Proof.
  intros Hget Hs Hr Hfresh Hstate Hsvc Hmark Hhandler. split.
  - unfold IntegrationStreamService.processStream.
    rewrite (bind_ok _ _ _ _ _ Hget), Hstate. simpl.
    unfold singleOrDefault. rewrite Hsvc.
    rewrite (bind_ok _ _ w w (Some integrationService)) by done.
    change (Repo.markStreamInProgress repo)
      with IntegrationStreamRepository.markStreamInProgress.
    rewrite (bind_ok _ _ _ _ _ Hmark).
    apply try_catch_throw. by apply bind_throw.
  - destruct (getStreamData_fields _ _ _ _ _ Hget Hs) as (_ & Hre & _).
    eapply Keeps_runHandler; [|exact Hhandler].
    eapply Keeps_markStreamInProgress; [|exact Hmark].
    split; eauto.
Qed.


(** C1.  When the handler of a stream throws an error that is not a
    [RateLimitError], [processStream] records the error on the stream
    (location [stream-process]); then, if the retries the stream had plus
    one do not exceed [maxStreamRetries], the stream is DELAYED until the
    time of the catch plus (retries + 1) times 15 minutes and has one
    retry more; otherwise the stream is left in ERROR and the run is marked
    ERROR with the location [stream-run-stop]. *)
Theorem processStream_handler_error (w w1 w2 : World) (streamId : string)
    (streamInfo : IStreamData) (s : Stream) (r : Run)
    (integrationService : IIntegrationService) (err : Err) :
  IntegrationStreamRepository.getStreamData streamId w
  = (w, Ok (Some streamInfo)) →
  List.filter (λ s, String.eqb (stream_id s) streamId) (runStreams w)
  = [s] →
  List.filter (λ r, String.eqb (run_id r) (sd_runId streamInfo)) (runs w)
  = [r] →
  (∀ n, (uuidSeq w ≤ n)%N → uuid_of n ≠ streamId) →
  sd_runState streamInfo = RUN_PROCESSING →
  List.filter (λ i, String.eqb (svc_type i) (sd_integrationType streamInfo))
    INTEGRATION_SERVICES = [integrationService] →
  IntegrationStreamRepository.markStreamInProgress streamId w
  = (w1, Ok tt) →
  runHandler streamId streamInfo
    (svc_processStream integrationService
       (IntegrationStreamService.context streamInfo)) w1
  = (w2, Throw err) →
  isRateLimitError err = false →
  ∃ w3 s',
    processStream streamId w = (w3, Ok tt)
    ∧ List.filter (λ s, String.eqb (stream_id s) streamId) (runStreams w3)
      = [s']
    ∧ stream_error s'
      = Some {| location := "stream-process";
                message := "Error while processing stream!";
                metadata := MdError err |}
    ∧ if stream_retries s + 1 <=? maxStreamRetries WORKER_SETTINGS
      then
        stream_state s' = STREAM_DELAYED
        ∧ stream_delayedUntil s'
          = Some (clock w2 + (stream_retries s + 1) * (15 * 60 * 1000))
        ∧ stream_retries s' = stream_retries s + 1
      else
        stream_state s' = STREAM_ERROR
        ∧ ∃ r',
            List.filter (λ r, String.eqb (run_id r) (sd_runId streamInfo))
              (runs w3) = [r']
            ∧ run_state r' = RUN_ERROR
            ∧ run_error r'
              = Some {| location := "stream-run-stop";
                        message := "Stream reached maximum retries!";
                        metadata :=
                          MdRetries (stream_retries s + 1)
                            (maxStreamRetries WORKER_SETTINGS) |}.
Proof.
  intros Hget Hs Hr Hfresh Hstate Hsvc Hmark Hhandler Hnot.
  destruct (processStream_handler_threw _ _ _ _ _ _ _ _ _ Hget Hs Hr Hfresh
              Hstate Hsvc Hmark Hhandler)
    as [-> [(s2 & Hs2 & Hre2) (r2 & Hr2) _]].
  destruct (getStreamData_fields _ _ _ _ _ Hget Hs) as (_ & Hre & _).
  destruct err as [secs|msg]; [done|]. simpl.
  set (error := {| location := "stream-process";
                   message := "Error while processing stream!";
                   metadata := MdError (Error msg) |}).
  destruct (update_one_stream w2 streamId s2
              (λ now s, IntegrationStreamRepository.with_stream STREAM_ERROR
                          (stream_delayedUntil s) (Some now)
                          (stream_retries s) (Some error) now s) Hs2)
    as (w3 & Herr & Hs3 & _ & Hruns3 & _ & _ & _ & Hclock3 & _); [done|].
  unfold IntegrationStreamService.triggerStreamError.
  change (Repo.markStreamError repo)
    with IntegrationStreamRepository.markStreamError.
  unfold IntegrationStreamRepository.markStreamError at 1.
  fold error. rewrite (bind_ok _ _ _ _ _ Herr).
  rewrite <- Hre.
  destruct (sd_retries streamInfo + 1 <=? maxStreamRetries WORKER_SETTINGS).
  - rewrite (bind_ok _ _ w3 w3 (clock w3)) by done.
    set (until := addSeconds (clock w3) _).
    destruct (update_one_stream w3 streamId _
                (λ now s, IntegrationStreamRepository.with_stream
                            STREAM_DELAYED (Some until)
                            (stream_processedAt s) (stream_retries s + 1)
                            (stream_error s) now s) Hs3)
      as (w4 & Hdelay & Hs4 & _); [done|].
    eexists w4, _. split; [exact Hdelay|]. split; [exact Hs4|].
    simpl. split; [done|]. split; [done|]. split; [|by rewrite Hre2].
    unfold until, addSeconds. rewrite Hclock3. f_equal. lia.
  - rewrite <- Hruns3 in Hr2.
    destruct (update_one_run w3 (sd_runId streamInfo) r2
                (IntegrationRunRepository.set_run_error
                   {| location := "stream-run-stop";
                      message := "Stream reached maximum retries!";
                      metadata :=
                        MdRetries (sd_retries streamInfo + 1)
                          (maxStreamRetries WORKER_SETTINGS) |}) Hr2)
      as (w4 & Hstop & Hr4 & Hstreams4 & _); [done|].
    eexists w4, _. split; [exact Hstop|].
    split; [by rewrite Hstreams4|]. simpl. split; [done|]. split; [done|].
    eexists. split; [exact Hr4|]. by split.
Qed.

End ProcessStream.

Lemma processStream_run_not_processing_witness :
  ∃ w' s',
    IntegrationStreamService.processStream IntegrationStreamRepository.repo
      (Queue.dataWorkerSender Fixture.fifoQueue)
      (Queue.streamWorkerSender Fixture.fifoQueue)
      Fixture.workerSettings Fixture.failingServices "stream-1"
      Fixture.worldRunError = (w', Ok tt)
    ∧ List.filter (λ s, String.eqb (stream_id s) "stream-1") (runStreams w')
      = [s']
    ∧ stream_state s' = STREAM_ERROR
    ∧ location <$> stream_error s' = Some "check-stream-run-state"
    ∧ length (runStreams w') = 1%nat
    ∧ streamData w' = []
    ∧ sqs w' = [].
Proof.
  destruct (processStream_run_not_processing Fixture.worldRunError
              "stream-1"
              {| sd_onboarding := false; sd_integrationId := "int-1";
                 sd_integrationType := "linkedin";
                 sd_integrationState := "done";
                 sd_integrationIdentifier := None;
                 sd_integrationSettings := Some (JObject Fixture.settings1);
                 sd_runState := RUN_ERROR; sd_runId := "run-1";
                 sd_tenantId := "tenant-1"; sd_identifier := "posts";
                 sd_parentId := None; sd_data := None; sd_retries := 0 |}
              Fixture.stream1 eq_refl eq_refl)
    as (w' & s' & Hp & Hf & Hst & Herr & Hlen & Hdata & Hsqs & _);
    [discriminate|].
  exists w', s'. split; [apply Hp|]. split; [exact Hf|]. split; [exact Hst|].
  split; [by rewrite Herr|]. by repeat split.
Defined.


Lemma processStream_handler_error_witness :
  ∃ w3 s',
    IntegrationStreamService.processStream IntegrationStreamRepository.repo
      (Queue.dataWorkerSender Fixture.fifoQueue)
      (Queue.streamWorkerSender Fixture.fifoQueue)
      Fixture.workerSettings Fixture.failingServices "stream-1"
      Fixture.world1 = (w3, Ok tt)
    ∧ List.filter (λ s, String.eqb (stream_id s) "stream-1") (runStreams w3)
      = [s']
    ∧ location <$> stream_error s' = Some "stream-process"
    ∧ stream_state s' = STREAM_DELAYED
    ∧ stream_delayedUntil s' = Some (1700000000000 + 250 + 900000)
    ∧ stream_retries s' = 1.
Proof.
  destruct (processStream_handler_error Fixture.workerSettings
              Fixture.failingServices Fixture.fifoQueue
              Fixture.fifoQueue Fixture.world1 Fixture.world1InProgress
              (Fixture.worldAfter Fixture.failingService) "stream-1"
              Fixture.streamInfo1 Fixture.stream1 Fixture.run1
              Fixture.failingService (Error "request failed")
              eq_refl eq_refl eq_refl)
    as (w3 & s' & Hp & Hs & Herr & Hst & Hd & Hre);
    [|reflexivity|reflexivity|reflexivity|reflexivity|reflexivity|].
  - intros n _. unfold uuid_of. discriminate.
  - exists w3, s'. split; [exact Hp|]. split; [exact Hs|].
    split; [by rewrite Herr|]. by repeat split.
Defined.

(** Scenario 3 of the specification, last failure: [maxStreamRetries] is 2
    and the stream already has 2 retries.  The stream is left in ERROR with
    its 2 retries, the run is stopped. *)
Example processStream_retries_exhausted :
  ∃ w3 s' r',
    IntegrationStreamService.processStream IntegrationStreamRepository.repo
      (Queue.dataWorkerSender Fixture.fifoQueue)
      (Queue.streamWorkerSender Fixture.fifoQueue)
      Fixture.workerSettings Fixture.failingServices "stream-1"
      Fixture.world1Retried = (w3, Ok tt)
    ∧ List.filter (λ s, String.eqb (stream_id s) "stream-1") (runStreams w3)
      = [s']
    ∧ stream_state s' = STREAM_ERROR
    ∧ stream_retries s' = 2
    ∧ runs w3 = [r']
    ∧ run_state r' = RUN_ERROR
    ∧ location <$> run_error r' = Some "stream-run-stop".
Proof.
  eexists _, _, _. split; [vm_compute; reflexivity|].
  repeat split; reflexivity.
Qed.
(** ** Failures inside [publishStream] and [publishData] *)

(** [markRunError] on a run that has its row: the row is in ERROR with the
    error, and no other table is touched. *)
Lemma markRunError_one_row (w : World) (runId : string) (error : ErrorInfo)
    (r : Run) :
  List.filter (λ r, String.eqb (run_id r) runId) (runs w) = [r] →
  ∃ w' r',
    IntegrationRunRepository.markRunError runId error w = (w', Ok tt)
    ∧ List.filter (λ r, String.eqb (run_id r) runId) (runs w') = [r']
    ∧ run_state r' = RUN_ERROR
    ∧ run_error r' = Some error
    ∧ run_processedAt r' = Some (clock w)
    ∧ runStreams w' = runStreams w ∧ streamData w' = streamData w
    ∧ integrations w' = integrations w ∧ sqs w' = sqs w.
Proof.
  intros Hr.
  destruct (update_one_run w runId r
              (IntegrationRunRepository.set_run_error error) Hr)
    as (w' & Hupdate & Hrow & Hstreams & Hdata & Hints & Hsqs & _);
    [done|].
  exists w', (IntegrationRunRepository.set_run_error error (clock w) r).
  by repeat split.
Qed.

(** What the [catch] blocks of [publishStream] and [publishData] do with a
    failure of the [try] block. *)
Lemma publish_catch (repo : Repo.StreamRepository) (runId : string)
    (location message : string) (try_ : M unit) (w w1 : World) (err : Err) :
  try_ w = (w1, Throw err) →
  (∃ w2 e,
     try_catch try_
       (λ err,
          await _ ← IntegrationStreamService.triggerRunError repo runId
                      location message (MdError err) ;;
          throw err) w
     = (w2, Throw e))
  ∧ (Repo.markRunError repo = IntegrationRunRepository.markRunError →
     ∀ r,
       List.filter (λ r, String.eqb (run_id r) runId) (runs w1) = [r] →
       ∃ w2 r',
         try_catch try_
           (λ err,
              await _ ← IntegrationStreamService.triggerRunError repo runId
                          location message (MdError err) ;;
              throw err) w
         = (w2, Throw err)
         ∧ List.filter (λ r, String.eqb (run_id r) runId) (runs w2) = [r']
         ∧ run_state r' = RUN_ERROR
         ∧ run_error r'
           = Some {| location := location; message := message;
                     metadata := MdError err |}
         ∧ run_processedAt r' = Some (clock w1)
         ∧ runStreams w2 = runStreams w1 ∧ streamData w2 = streamData w1
         ∧ integrations w2 = integrations w1 ∧ sqs w2 = sqs w1).
Proof.
  intros Hfail. rewrite (try_catch_throw _ _ _ _ _ Hfail).
  unfold IntegrationStreamService.triggerRunError, bind. split.
  - destruct (Repo.markRunError repo runId _ w1) as [w2 [[]|e]];
      by eexists _, _.
  - intros -> r Hr.
    destruct (markRunError_one_row w1 runId
                {| location := location; message := message;
                   metadata := MdError err |} r Hr)
      as (w2 & r' & Hmark & Hrest).
    exists w2, r'. by rewrite Hmark.
Qed.

(** C9.  When persisting or enqueuing inside the [publishStream] (or
    [publishData]) of the context of a stream fails with [err], the call
    never resolves, whatever the repository and the senders are.  With the
    [markRunError] of the repository, and the owning run having its row in
    the state the failure left, the call ends with that run in ERROR,
    carrying the location [run-publish-child-stream] (or
    [run-publish-stream-data]) and [err], and then throws [err] itself to
    the handler; the marking is on the run, the rows of the streams are as
    the failure left them. *)
Theorem publish_failure_marks_run (repo : Repo.StreamRepository)
    (dataSender : Queue.DataWorkerSender)
    (streamSender : Queue.StreamWorkerSender)
    (streamId : string) (streamInfo : IStreamData) :
  (∀ identifier data w w1 err,
     Repo.publishStream repo streamId (sd_runId streamInfo) identifier data w
     = (w1, Throw err)
     ∨ (∃ w0 childId,
          Repo.publishStream repo streamId (sd_runId streamInfo) identifier
            data w = (w0, Ok childId)
          ∧ Queue.triggerStreamProcessing streamSender
              (sd_tenantId streamInfo) childId w0 = (w1, Throw err)) →
     (∃ w2 e,
        IntegrationStreamService.contextCall repo dataSender streamSender
          streamId streamInfo (CallPublishStream identifier data) w
        = (w2, Throw e))
     ∧ (Repo.markRunError repo = IntegrationRunRepository.markRunError →
        ∀ r,
          List.filter (λ r, String.eqb (run_id r) (sd_runId streamInfo))
            (runs w1) = [r] →
          ∃ w2 r',
            IntegrationStreamService.contextCall repo dataSender
              streamSender streamId streamInfo
              (CallPublishStream identifier data) w
            = (w2, Throw err)
            ∧ List.filter
                (λ r, String.eqb (run_id r) (sd_runId streamInfo))
                (runs w2) = [r']
            ∧ run_state r' = RUN_ERROR
            ∧ run_error r'
              = Some {| location := "run-publish-child-stream";
                        message := "Error while publishing child stream!";
                        metadata := MdError err |}
            ∧ run_processedAt r' = Some (clock w1)
            ∧ runStreams w2 = runStreams w1 ∧ streamData w2 = streamData w1
            ∧ integrations w2 = integrations w1 ∧ sqs w2 = sqs w1))
  ∧ (∀ data w w1 err,
       Repo.publishData repo streamId data w = (w1, Throw err)
       ∨ (∃ w0 dataId,
            Repo.publishData repo streamId data w = (w0, Ok dataId)
            ∧ Queue.triggerDataProcessing dataSender
                (sd_tenantId streamInfo) dataId w0 = (w1, Throw err)) →
       (∃ w2 e,
          IntegrationStreamService.contextCall repo dataSender streamSender
            streamId streamInfo (CallPublishData data) w
          = (w2, Throw e))
       ∧ (Repo.markRunError repo = IntegrationRunRepository.markRunError →
          ∀ r,
            List.filter (λ r, String.eqb (run_id r) (sd_runId streamInfo))
              (runs w1) = [r] →
            ∃ w2 r',
              IntegrationStreamService.contextCall repo dataSender
                streamSender streamId streamInfo (CallPublishData data) w
              = (w2, Throw err)
              ∧ List.filter
                  (λ r, String.eqb (run_id r) (sd_runId streamInfo))
                  (runs w2) = [r']
              ∧ run_state r' = RUN_ERROR
              ∧ run_error r'
                = Some {| location := "run-publish-stream-data";
                          message := "Error while publishing stream data!";
                          metadata := MdError err |}
              ∧ run_processedAt r' = Some (clock w1)
              ∧ runStreams w2 = runStreams w1
              ∧ streamData w2 = streamData w1
              ∧ integrations w2 = integrations w1 ∧ sqs w2 = sqs w1)).
Proof.
  split.
  - intros identifier data w w1 err Hfail.
    apply (publish_catch repo (sd_runId streamInfo)
             "run-publish-child-stream"
             "Error while publishing child stream!").
    destruct Hfail as [Hp|(w0 & childId & Hp & Hq)].
    + by apply bind_throw.
    + by rewrite (bind_ok _ _ _ _ _ Hp).
  - intros data w w1 err Hfail.
    apply (publish_catch repo (sd_runId streamInfo)
             "run-publish-stream-data"
             "Error while publishing stream data!").
    destruct Hfail as [Hp|(w0 & dataId & Hp & Hq)].
    + by apply bind_throw.
    + by rewrite (bind_ok _ _ _ _ _ Hp).
Qed.

(** Two failures on the run of [Fixture.world1].  The child stream is
    persisted and the sender was never initialised: the run ends in ERROR
    with the location of the operation and the handler gets the error of
    the sender.  The database rejects the insert of the data: the run ends
    in ERROR and the handler gets the error of the database. *)
Lemma publish_failure_marks_run_witness :
  (∃ w2 r',
     IntegrationStreamService.contextCall IntegrationStreamRepository.repo
       (Queue.dataWorkerSender Fixture.uninitializedQueue)
       (Queue.streamWorkerSender Fixture.uninitializedQueue)
       "stream-1" Fixture.streamInfo1
       (CallPublishStream "child-a" (Some Fixture.childPayload))
       Fixture.world1
     = (w2, Throw (Error "Queue URL not set - please call init() first!"))
     ∧ List.filter (λ r, String.eqb (run_id r) "run-1") (runs w2) = [r']
     ∧ run_state r' = RUN_ERROR
     ∧ run_error r'
       = Some {| location := "run-publish-child-stream";
                 message := "Error while publishing child stream!";
                 metadata :=
                   MdError
                     (Error
                        "Queue URL not set - please call init() first!") |}
     ∧ run_processedAt r' = Some (clock Fixture.world1)
     ∧ length (runStreams w2) = 2%nat ∧ streamData w2 = []
     ∧ integrations w2 = [Fixture.int1] ∧ sqs w2 = [])
  ∧ (∃ w2 r',
       IntegrationStreamService.contextCall Scenario.rejectingRepo
         (Queue.dataWorkerSender Fixture.fifoQueue)
         (Queue.streamWorkerSender Fixture.fifoQueue)
         "stream-1" Fixture.streamInfo1
         (CallPublishData Fixture.childPayload) Fixture.world1
       = (w2, Throw Scenario.insertRejected)
       ∧ List.filter (λ r, String.eqb (run_id r) "run-1") (runs w2) = [r']
       ∧ run_state r' = RUN_ERROR
       ∧ run_error r'
         = Some {| location := "run-publish-stream-data";
                   message := "Error while publishing stream data!";
                   metadata := MdError Scenario.insertRejected |}
       ∧ run_processedAt r' = Some (clock Fixture.world1)
       ∧ runStreams w2 = runStreams Fixture.world1
       ∧ streamData w2 = streamData Fixture.world1
       ∧ integrations w2 = integrations Fixture.world1
       ∧ sqs w2 = sqs Fixture.world1).
Proof.
  split.
  - destruct (proj2
                (proj1
                   (publish_failure_marks_run
                      IntegrationStreamRepository.repo
                      (Queue.dataWorkerSender Fixture.uninitializedQueue)
                      (Queue.streamWorkerSender Fixture.uninitializedQueue)
                      "stream-1" Fixture.streamInfo1)
                   "child-a" (Some Fixture.childPayload) Fixture.world1
                   (IntegrationStreamRepository.publishStream "stream-1"
                      "run-1" "child-a" (Some Fixture.childPayload)
                      Fixture.world1).1
                   (Error "Queue URL not set - please call init() first!")
                   (or_intror
                      (ex_intro _ _ (ex_intro _ _ (conj eq_refl eq_refl)))))
                eq_refl Fixture.run1 eq_refl)
      as (w2 & r' & Hcall & Hrow & Hstate & Herror & Hat & Hs & Hd & Hi & Hq).
    exists w2, r'. rewrite Hs, Hd, Hi, Hq. by repeat split.
  - apply (proj2
             (proj2
                (publish_failure_marks_run Scenario.rejectingRepo
                   (Queue.dataWorkerSender Fixture.fifoQueue)
                   (Queue.streamWorkerSender Fixture.fifoQueue)
                   "stream-1" Fixture.streamInfo1)
                Fixture.childPayload Fixture.world1 Fixture.world1
                Scenario.insertRejected (or_introl eq_refl))
             eq_refl Fixture.run1 eq_refl).
Defined.

(** * Further properties *)

(** ** The queue library *)

(** X1.  [sendMessage] on a queue object in which [init()] has stored no URL
    throws before anything is handed to SQS and changes nothing; on a queue
    with a URL it hands over exactly one request, with that URL, the group
    id and the time it read, and touches no table. *)
Theorem sendMessage_needs_init (q : SqsQueueBase) (groupId : string)
    (message : IQueueMessage) (w : World) :
  (queueUrl q = None →
   ∃ e, SqsQueueSender.sendMessage q groupId message w = (w, Throw e))
  ∧ (∀ url,
       queueUrl q = Some url → url ≠ EmptyString →
       ∃ w', SqsQueueSender.sendMessage q groupId message w = (w', Ok tt)
             ∧ sqs w' = sqs w
                        ++ [SqsQueueSender.sendMessageParams q url (clock w)
                              groupId message]
             ∧ runs w' = runs w ∧ runStreams w' = runStreams w
             ∧ streamData w' = streamData w
             ∧ integrations w' = integrations w).
Proof.
  unfold SqsQueueSender.sendMessage, getQueueUrl, bind. split.
  - intros ->. by eexists.
  - intros url -> _. simpl. eexists. split; [reflexivity|]. by repeat split.
Qed.

Lemma sendMessage_needs_init_witness :
  (∃ e, SqsQueueSender.sendMessage Fixture.uninitializedQueue "tenant-1"
          (ProcessStream "stream-1") Fixture.world1
        = (Fixture.world1, Throw e))
  ∧ ∃ w', SqsQueueSender.sendMessage Fixture.fifoQueue "tenant-1"
            (ProcessStream "stream-1") Fixture.world1 = (w', Ok tt)
          ∧ sqs w' = sqs Fixture.world1
                     ++ [SqsQueueSender.sendMessageParams Fixture.fifoQueue
                           "https://sqs/integration-stream-worker.fifo"
                           (clock Fixture.world1) "tenant-1"
                           (ProcessStream "stream-1")]
          ∧ runs w' = runs Fixture.world1
          ∧ runStreams w' = runStreams Fixture.world1
          ∧ streamData w' = streamData Fixture.world1
          ∧ integrations w' = integrations Fixture.world1.
Proof.
  split.
  - apply (proj1 (sendMessage_needs_init Fixture.uninitializedQueue
                    "tenant-1" (ProcessStream "stream-1") Fixture.world1)).
    reflexivity.
  - apply (proj2 (sendMessage_needs_init Fixture.fifoQueue "tenant-1"
                    (ProcessStream "stream-1") Fixture.world1));
      [reflexivity | discriminate].
Defined.

Module ReceiverMore.

Import SqsQueueReceiver ReceiverInvariant ReceiverFacts.

Lemma messages_insert (l : list Job) (i : nat) (j j' : Job) :
  l !! i = Some j → job_message j' = job_message j →
  map job_message (<[i:=j']> l) = map job_message l.
Proof.
  intros Hi Hm. rewrite list_fmap_insert, Hm.
  apply list_insert_id. by rewrite list_lookup_fmap, Hi.
Qed.

Section Loop.

Variable max : Z.
Variable JSON_parse : string → option IQueueMessage.

(** Once [start()] has rejected, nothing moves the loop again. *)
Lemma rejected_step b e r r' :
  pc r = Rejected b → step max JSON_parse e r = Some r' →
  pc r' = Rejected b
  ∧ map job_message (jobs r') = map job_message (jobs r).
Proof.
  intros Hpc Hstep. step_cases Hstep; simpl; try done; try congruence;
    (split; [done|]); by eapply messages_insert.
Qed.

Lemma rejected_run b es r r' :
  pc r = Rejected b → run max JSON_parse es r = Some r' →
  pc r' = Rejected b
  ∧ map job_message (jobs r') = map job_message (jobs r).
Proof.
  revert r. induction es as [|e es IH]; simpl; intros r Hpc Hrun.
  - by injection Hrun as <-.
  - destruct (step max JSON_parse e r) as [r1|] eqn:Hs; [|done].
    destruct (rejected_step _ _ _ _ Hpc Hs) as [Hpc1 Hm1].
    destruct (IH _ Hpc1 Hrun) as [Hpc' Hm']. split; congruence.
Qed.

Lemma run_app es1 es2 r :
  run max JSON_parse (es1 ++ es2) r
  = match run max JSON_parse es1 r with
    | Some r1 => run max JSON_parse es2 r1
    | None => None
    end.
Proof.
  revert r. induction es1 as [|e es1 IH]; simpl; intros r; [done|].
  by destruct (step max JSON_parse e r).
Qed.

(** X2.  A message whose body [JSON.parse] rejects ends the loop:
    [start()] rejects after [addJob()], so from then on no message is
    received, the message gets no promise chain (and so no
    [deleteMessage]), and the counter stays at 1 or above. *)
Theorem unparsable_body_ends_loop (es1 es2 : list Event)
    (message : SqsMessage) (r r' : Receiver) :
  0 ≤ max →
  run max JSON_parse es1 start = Some r →
  JSON_parse (Body message) = None →
  run max JSON_parse (ReceiveResolved (Some message) :: es2) r
  = Some r' →
  pc r' = Rejected true
  ∧ map job_message (jobs r') = map job_message (jobs r)
  ∧ 1 ≤ processingMessages r'
  ∧ Forall (λ x, ∃ j, j ∈ jobs r'
                      ∧ ReceiptHandle (job_message j) = x)
      (deletedReceipts r').
Proof.
  intros Hmax Hrun1 Hparse Hrun2.
  assert (Hall : run max JSON_parse
                   (es1 ++ ReceiveResolved (Some message) :: es2) start
                 = Some r') by (by rewrite run_app, Hrun1).
  destruct (Inv_run max JSON_parse _ _ _ (Inv_start max) Hall)
    as [_ Hreceipts Hcounted].
  destruct (Hcounted Hmax) as [Hcount _ _].
  cbn [run] in Hrun2.
  destruct (step max JSON_parse (ReceiveResolved (Some message)) r)
    as [r1|] eqn:Hstep; [|done].
  assert (Hr1 : pc r1 = Rejected true ∧ jobs r1 = jobs r).
  { unfold step in Hstep. destruct (pc r); try done.
    cbv zeta in Hstep. rewrite Hparse in Hstep.
    by injection Hstep as <-. }
  destruct Hr1 as [Hpc1 Hjobs1].
  destruct (rejected_run _ _ _ _ Hpc1 Hrun2) as [Hpc' Hm'].
  split; [done|]. split; [by rewrite Hm', Hjobs1|]. split.
  - rewrite Hcount. unfold inFlight. rewrite Hpc'. lia.
  - apply Forall_forall. intros x Hx.
    apply (proj1 (Hreceipts x)) in Hx as (i & j & Hi & _ & Hj).
    exists j. split; [|done]. apply list_elem_of_lookup. eauto.
Qed.

(** After [stop()], [started] stays false and nothing but the receive
    that may be pending can add a message. *)
Lemma stopped_step e r r' :
  started r = false → step max JSON_parse e r = Some r' →
  started r' = false
  ∧ (length (jobs r') + receivesLeft (pc r')
     ≤ length (jobs r) + receivesLeft (pc r))%nat.
Proof.
  intros Hst Hstep. step_cases Hstep; simpl;
    rewrite ?length_insert, ?length_app; simpl;
    repeat match goal with
           | E : pc r = _ |- _ => rewrite E
           end; simpl; split; try done; try congruence; lia.
Qed.

(** X3.  Once [stop()] was called the loop takes at most the one message
    it may already be awaiting, whatever happens next, and leaves the
    [while] the next time it tests it. *)
Theorem stop_takes_at_most_one_more (es : list Event) (r r' : Receiver) :
  started r = false →
  run max JSON_parse es r = Some r' →
  started r' = false
  ∧ (length (jobs r') + receivesLeft (pc r')
     ≤ length (jobs r) + receivesLeft (pc r))%nat
  ∧ (pc r' = AtLoopHead →
     step max JSON_parse LoopHead r' = Some (set_pc Returned r')).
Proof.
  revert r. induction es as [|e es IH]; simpl; intros r Hst Hrun.
  - injection Hrun as <-. split; [done|]. split; [lia|].
    intros Hpc. unfold step. by rewrite Hpc, Hst.
  - destruct (step max JSON_parse e r) as [r1|] eqn:Hs; [|done].
    destruct (stopped_step _ _ _ Hst Hs) as [Hst1 Hle1].
    destruct (IH _ Hst1 Hrun) as (Hst' & Hle' & Hhead).
    split; [done|]. split; [lia|done].
Qed.

End Loop.

Lemma unparsable_body_ends_loop_witness :
  ∃ r r',
    run 2 Scenario.strictParse
      [LoopHead; ReceiveResolved (Some ReceiverExample.m1); LoopHead]
      start = Some r
    ∧ run 2 Scenario.strictParse
        (ReceiveResolved (Some Scenario.badMessage)
         :: [ProcessResolved 0; DeleteResolved 0]) r = Some r'
    ∧ pc r' = Rejected true
    ∧ map job_message (jobs r') = map job_message (jobs r)
    ∧ 1 ≤ processingMessages r'
    ∧ Forall (λ x, ∃ j, j ∈ jobs r'
                        ∧ ReceiptHandle (job_message j) = x)
        (deletedReceipts r').
Proof.
  eexists _, _. split; [vm_compute; reflexivity|].
  split; [vm_compute; reflexivity|].
  apply (unparsable_body_ends_loop 2 Scenario.strictParse
           [LoopHead; ReceiveResolved (Some ReceiverExample.m1); LoopHead]
           [ProcessResolved 0; DeleteResolved 0]
           Scenario.badMessage);
    [lia | reflexivity | reflexivity | reflexivity].
Defined.

Lemma stop_takes_at_most_one_more_witness :
  ∃ r r',
    run 2 ReceiverExample.parse [LoopHead; StopCalled] start = Some r
    ∧ run 2 ReceiverExample.parse
        [ReceiveResolved (Some ReceiverExample.m1)] r = Some r'
    ∧ started r' = false
    ∧ (length (jobs r') + receivesLeft (pc r')
       ≤ length (jobs r) + receivesLeft (pc r))%nat
    ∧ (pc r' = AtLoopHead →
       step 2 ReceiverExample.parse LoopHead r'
       = Some (set_pc Returned r')).
Proof.
  eexists _, _. split; [vm_compute; reflexivity|].
  split; [vm_compute; reflexivity|].
  apply (stop_takes_at_most_one_more 2 ReceiverExample.parse
           [ReceiveResolved (Some ReceiverExample.m1)]);
    reflexivity.
Defined.

End ReceiverMore.

(** ** The run repository *)

Lemma set_runStreams_app_nil (w : World) :
  set_runStreams (λ l, l ++ []) w = w.
Proof. destruct w. unfold set_runStreams. simpl. by rewrite app_nil_r. Qed.

Lemma set_integrations_same (w : World) :
  set_integrations (λ _, integrations w) w = w.
Proof. by destruct w. Qed.

(** [markRunError] on an id that no run has. *)
Lemma markRunError_missing_row (w : World) (runId : string)
    (error : ErrorInfo) :
  List.filter (λ r, String.eqb (run_id r) runId) (runs w) = [] →
  ∃ e, IntegrationRunRepository.markRunError runId error w = (w, Throw e).
Proof.
  intros Hr.
  unfold IntegrationRunRepository.markRunError, bind,
    IntegrationRunRepository.update_runs, sql_update.
  rewrite Hr, (map_update_none _ _ _ Hr), set_runs_same. by eexists.
Qed.

(** X4.  [markRunInProgress] and [touchRun] leave the error, [processedAt]
    and [delayedUntil] of the run as they are ([touchRun] the state too).
    So a run that [markRunError] has marked and that is put back in
    progress is PROCESSING and still carries the error and the
    [processedAt] of the failure. *)
Theorem markRunInProgress_keeps_error (w : World) (runId : string)
    (error : ErrorInfo) (r : Run) :
  List.filter (λ r, String.eqb (run_id r) runId) (runs w) = [r] →
  (∃ w' r',
     IntegrationRunRepository.markRunInProgress runId w = (w', Ok tt)
     ∧ List.filter (λ r, String.eqb (run_id r) runId) (runs w') = [r']
     ∧ run_state r' = RUN_PROCESSING
     ∧ run_error r' = run_error r
     ∧ run_processedAt r' = run_processedAt r
     ∧ run_delayedUntil r' = run_delayedUntil r)
  ∧ (∃ w' r',
       IntegrationRunRepository.touchRun runId w = (w', Ok tt)
       ∧ List.filter (λ r, String.eqb (run_id r) runId) (runs w') = [r']
       ∧ run_state r' = run_state r
       ∧ run_error r' = run_error r
       ∧ run_processedAt r' = run_processedAt r
       ∧ run_delayedUntil r' = run_delayedUntil r)
  ∧ (∃ w1 w2 r2,
       IntegrationRunRepository.markRunError runId error w = (w1, Ok tt)
       ∧ IntegrationRunRepository.markRunInProgress runId w1 = (w2, Ok tt)
       ∧ List.filter (λ r, String.eqb (run_id r) runId) (runs w2) = [r2]
       ∧ run_state r2 = RUN_PROCESSING
       ∧ run_error r2 = Some error
       ∧ run_processedAt r2 = Some (clock w)).
Proof.
  intros Hr. split; [|split].
  - destruct (update_one_run w runId r
                IntegrationRunRepository.set_run_in_progress Hr)
      as (w' & Hrun & Hf & _); [done|].
    by exists w', (IntegrationRunRepository.set_run_in_progress (clock w) r).
  - destruct (update_one_run w runId r
                IntegrationRunRepository.set_run_touched Hr)
      as (w' & Hrun & Hf & _); [done|].
    by exists w', (IntegrationRunRepository.set_run_touched (clock w) r).
  - destruct (update_one_run w runId r
                (IntegrationRunRepository.set_run_error error) Hr)
      as (w1 & Hrun1 & Hf1 & _); [done|].
    destruct (update_one_run w1 runId _
                IntegrationRunRepository.set_run_in_progress Hf1)
      as (w2 & Hrun2 & Hf2 & _); [done|].
    by eexists w1, w2, _.
Qed.

Lemma markRunInProgress_keeps_error_witness :
  ∃ w1 w2 r2,
    IntegrationRunRepository.markRunError "run-1" Fixture.structuredError
      Fixture.world1 = (w1, Ok tt)
    ∧ IntegrationRunRepository.markRunInProgress "run-1" w1 = (w2, Ok tt)
    ∧ List.filter (λ r, String.eqb (run_id r) "run-1") (runs w2) = [r2]
    ∧ run_state r2 = RUN_PROCESSING
    ∧ run_error r2 = Some Fixture.structuredError
    ∧ run_processedAt r2 = Some (clock Fixture.world1).
Proof.
  apply (markRunInProgress_keeps_error Fixture.world1 "run-1"
           Fixture.structuredError Fixture.run1).
  reflexivity.
Defined.

(** X5.  The updates of the run repository never pass over a missing row
    in silence: when no run has the id, [markRunInProgress], [touchRun] and
    [updateIntegrationSettings] throw and leave every table as it was; so
    does [updateIntegrationSettings] when the run exists and no integration
    has the id the run names. *)
Theorem run_updates_need_their_row (w : World) (runId : string)
    (settings : Json) :
  (List.filter (λ r, String.eqb (run_id r) runId) (runs w) = [] →
   (∃ e, IntegrationRunRepository.markRunInProgress runId w = (w, Throw e))
   ∧ (∃ e, IntegrationRunRepository.touchRun runId w = (w, Throw e))
   ∧ (∃ e, IntegrationRunRepository.updateIntegrationSettings runId
             settings w = (w, Throw e)))
  ∧ (∀ r,
       List.find (λ r, String.eqb (run_id r) runId) (runs w) = Some r →
       List.filter (λ i, String.eqb (int_id i) (run_integrationId r))
         (integrations w) = [] →
       ∃ e, IntegrationRunRepository.updateIntegrationSettings runId
              settings w = (w, Throw e)).
Proof.
  split.
  - intros Hr. split; [|split].
    + unfold IntegrationRunRepository.markRunInProgress, bind,
        IntegrationRunRepository.update_runs, sql_update.
      rewrite Hr, (map_update_none _ _ _ Hr), set_runs_same. by eexists.
    + unfold IntegrationRunRepository.touchRun, bind,
        IntegrationRunRepository.update_runs, sql_update.
      rewrite Hr, (map_update_none _ _ _ Hr), set_runs_same. by eexists.
    + assert (Hsel : sql_select_first (λ r, String.eqb (run_id r) runId)
                       run_integrationId (runs w) = None)
        by (unfold sql_select_first; by rewrite find_filter, Hr).
      assert (Hnone : List.filter
                        (λ i : Integration, sql_eq_nullable (int_id i) None)
                        (integrations w) = [])
        by (induction (integrations w); simpl; done).
      unfold IntegrationRunRepository.updateIntegrationSettings, bind,
        IntegrationRunRepository.update_integrations, sql_update.
      rewrite Hsel, Hnone, (map_update_none _ _ _ Hnone),
        set_integrations_same.
      by eexists.
  - intros r Hfind Hi.
    unfold IntegrationRunRepository.updateIntegrationSettings, bind,
      IntegrationRunRepository.update_integrations, sql_update,
      sql_select_first.
    rewrite Hfind. simpl.
    rewrite Hi, (map_update_none _ _ _ Hi), set_integrations_same.
    by eexists.
Qed.

Lemma run_updates_need_their_row_witness :
  (∃ e, IntegrationRunRepository.markRunInProgress "run-2" Fixture.world1
        = (Fixture.world1, Throw e))
  ∧ (∃ e, IntegrationRunRepository.touchRun "run-2" Fixture.world1
          = (Fixture.world1, Throw e))
  ∧ (∃ e, IntegrationRunRepository.updateIntegrationSettings "run-2"
            JNull Fixture.world1 = (Fixture.world1, Throw e)).
Proof.
  apply (proj1 (run_updates_need_their_row Fixture.world1 "run-2" JNull)).
  reflexivity.
Defined.

(** X6.  On an integration whose [settings] column is [NULL],
    [updateIntegrationSettings] finds its row and resolves, and the column
    is still [NULL]: [NULL || partial] is [NULL], so the partial is lost
    without an error. *)
Theorem updateIntegrationSettings_null_settings (w : World)
    (runId : string) (r : Run) (i : Integration) (settings : Json) :
  List.find (λ r, String.eqb (run_id r) runId) (runs w) = Some r →
  List.filter (λ i, String.eqb (int_id i) (run_integrationId r))
    (integrations w) = [i] →
  int_settings i = None →
  ∃ w' i',
    IntegrationRunRepository.updateIntegrationSettings runId settings w
    = (w', Ok tt)
    ∧ List.filter (λ i, String.eqb (int_id i) (run_integrationId r))
        (integrations w') = [i']
    ∧ int_settings i' = None.
Proof.
  intros Hfind Hi Hnull.
  unfold IntegrationRunRepository.updateIntegrationSettings, bind,
    IntegrationRunRepository.update_integrations, sql_update,
    sql_select_first.
  rewrite Hfind. simpl. rewrite Hi. simpl.
  eexists _, _. split; [reflexivity|]. simpl.
  rewrite filter_map_update by done. rewrite Hi. simpl.
  rewrite (filter_eqb_head _ _ _ _ Hi), String.eqb_refl.
  split; [reflexivity|]. simpl. by rewrite Hnull.
Qed.

Lemma updateIntegrationSettings_null_settings_witness :
  ∃ w' i',
    IntegrationRunRepository.updateIntegrationSettings "run-1"
      Fixture.childPayload Scenario.worldNoSettings = (w', Ok tt)
    ∧ List.filter
        (λ i, String.eqb (int_id i) (run_integrationId Fixture.run1))
        (integrations w') = [i']
    ∧ int_settings i' = None.
Proof.
  apply (updateIntegrationSettings_null_settings Scenario.worldNoSettings
           "run-1" Fixture.run1 Scenario.intNoSettings Fixture.childPayload);
    reflexivity.
Defined.

(** X7.  Two [updateIntegrationSettings] calls with the objects [p1] and
    then [p2], on settings that are the object [m], leave the object in
    which a key has the value of [p2] if [p2] has it, else that of [p1] if
    [p1] has it, else the one it had: the later call wins on a common key,
    calls on different keys do not undo each other, and repeating a call
    changes nothing more. *)
Theorem updateIntegrationSettings_twice (w : World) (runId : string)
    (r : Run) (i : Integration) (m p1 p2 : gmap string Json) :
  List.find (λ r, String.eqb (run_id r) runId) (runs w) = Some r →
  List.filter (λ i, String.eqb (int_id i) (run_integrationId r))
    (integrations w) = [i] →
  int_settings i = Some (JObject m) →
  ∃ w1 w2 i2 m2,
    IntegrationRunRepository.updateIntegrationSettings runId (JObject p1) w
    = (w1, Ok tt)
    ∧ IntegrationRunRepository.updateIntegrationSettings runId (JObject p2)
        w1 = (w2, Ok tt)
    ∧ List.filter (λ i, String.eqb (int_id i) (run_integrationId r))
        (integrations w2) = [i2]
    ∧ int_settings i2 = Some (JObject m2)
    ∧ (∀ k, m2 !! k
            = match p2 !! k with
              | Some v => Some v
              | None => match p1 !! k with
                        | Some v => Some v
                        | None => m !! k
                        end
              end)
    ∧ (p1 = p2 → m2 = p1 ∪ m).
Proof.
  intros Hfind Hi Hm.
  assert (Hstep : ∀ (w0 : World) (i0 : Integration) (m0 p : gmap string Json),
            runs w0 = runs w →
            List.filter (λ i, String.eqb (int_id i) (run_integrationId r))
              (integrations w0) = [i0] →
            int_settings i0 = Some (JObject m0) →
            ∃ w' i',
              IntegrationRunRepository.updateIntegrationSettings runId
                (JObject p) w0 = (w', Ok tt)
              ∧ runs w' = runs w
              ∧ List.filter
                  (λ i, String.eqb (int_id i) (run_integrationId r))
                  (integrations w') = [i']
              ∧ int_settings i' = Some (JObject (p ∪ m0))).
  { intros w0 i0 m0 p Hruns Hi0 Hm0.
    unfold IntegrationRunRepository.updateIntegrationSettings, bind,
      IntegrationRunRepository.update_integrations, sql_update,
      sql_select_first.
    rewrite Hruns, Hfind. simpl. rewrite Hi0. simpl.
    eexists _, _. split; [reflexivity|]. simpl. split; [done|].
    rewrite filter_map_update by done. rewrite Hi0. simpl.
    rewrite (filter_eqb_head _ _ _ _ Hi0), String.eqb_refl.
    split; [reflexivity|]. simpl. by rewrite Hm0. }
  destruct (Hstep w i m p1 eq_refl Hi Hm) as (w1 & i1 & H1 & Hr1 & Hi1 & Hm1).
  destruct (Hstep w1 i1 (p1 ∪ m) p2 Hr1 Hi1 Hm1)
    as (w2 & i2 & H2 & Hr2 & Hi2 & Hm2).
  exists w1, w2, i2, (p2 ∪ (p1 ∪ m)). repeat split; try done.
  - intros k. rewrite !lookup_union.
    destruct (p2 !! k), (p1 !! k), (m !! k); done.
  - intros ->. by rewrite (assoc_L (∪)), (idemp_L (∪)).
Qed.

Lemma updateIntegrationSettings_twice_witness :
  ∃ w1 w2 i2 m2,
    IntegrationRunRepository.updateIntegrationSettings "run-1"
      (JObject (<["lastSync" := JNumber 1]> ∅)) Fixture.world1 = (w1, Ok tt)
    ∧ IntegrationRunRepository.updateIntegrationSettings "run-1"
        (JObject (<["cursor" := JString "x"]> ∅)) w1 = (w2, Ok tt)
    ∧ List.filter
        (λ i, String.eqb (int_id i) (run_integrationId Fixture.run1))
        (integrations w2) = [i2]
    ∧ int_settings i2 = Some (JObject m2)
    ∧ (∀ k, m2 !! k
            = match (<["cursor" := JString "x"]> ∅ : gmap string Json) !! k
              with
              | Some v => Some v
              | None =>
                  match (<["lastSync" := JNumber 1]> ∅ : gmap string Json)
                        !! k with
                  | Some v => Some v
                  | None => Fixture.settings1 !! k
                  end
              end)
    ∧ ((<["lastSync" := JNumber 1]> ∅ : gmap string Json)
       = <["cursor" := JString "x"]> ∅ →
       m2 = <["lastSync" := JNumber 1]> ∅ ∪ Fixture.settings1).
Proof.
  apply (updateIntegrationSettings_twice Fixture.world1 "run-1" Fixture.run1
           Fixture.int1 Fixture.settings1);
    reflexivity.
Defined.

(** X8.  [publishStream] on a run that does not exist throws and inserts no
    stream row; the id it had generated is used up. *)
Theorem publishStream_missing_run (w : World) (runId : string)
    (stream : IIntegrationStream) :
  List.filter (λ r, String.eqb (run_id r) runId) (runs w) = [] →
  ∃ w' e,
    IntegrationRunRepository.publishStream runId stream w = (w', Throw e)
    ∧ runStreams w' = runStreams w
    ∧ runs w' = runs w
    ∧ uuidSeq w' = N.succ (uuidSeq w).
Proof.
  intros Hr.
  unfold IntegrationRunRepository.publishStream, generateUUIDv1, bind,
    IntegrationRunRepository.insert_runStreams.
  simpl. rewrite Hr. simpl. eexists _, _. split; [reflexivity|]. simpl.
  by rewrite app_nil_r.
Qed.

Lemma publishStream_missing_run_witness :
  ∃ w' e,
    IntegrationRunRepository.publishStream "run-2" Fixture.rootStream
      Fixture.world1 = (w', Throw e)
    ∧ runStreams w' = runStreams Fixture.world1
    ∧ runs w' = runs Fixture.world1
    ∧ uuidSeq w' = N.succ (uuidSeq Fixture.world1).
Proof.
  apply (publishStream_missing_run Fixture.world1 "run-2"
           Fixture.rootStream).
  reflexivity.
Defined.

(** The number of streams that [getGenerateStreamData] reports for a run
    is the number of rows of [integration."runStreams"] with its id. *)
Lemma joined_stream_counts_length (w : World) (runId : string) (r : Run) :
  run_id r = runId →
  IntegrationRunRepository.joined_stream_counts runId r w
  = [length (List.filter (λ s, String.eqb (stream_runId s) runId)
               (runStreams w))].
Proof.
  intros <-.
  unfold IntegrationRunRepository.joined_stream_counts,
    IntegrationRunRepository.stream_count.
  destruct (List.filter _ (runStreams w)) as [|s l]; [done|].
  simpl. by rewrite String.eqb_refl.
Qed.

Lemma getGenerateStreamData_one (w : World) (runId : string) (r : Run)
    (i : Integration) :
  List.filter (λ r, String.eqb (run_id r) runId) (runs w) = [r] →
  List.filter
    (λ i, String.eqb (run_integrationId r) (int_id i)
          && bool_decide (int_deletedAt i = None)) (integrations w) = [i] →
  IntegrationRunRepository.getGenerateStreamData runId w
  = (w, Ok (Some
       {| gs_onboarding := run_onboarding r;
          gs_integrationId := run_integrationId r;
          gs_integrationType := int_platform i;
          gs_integrationState := int_status i;
          gs_integrationIdentifier := int_identifier i;
          gs_runState := run_state r;
          gs_runId := run_id r;
          gs_tenantId := run_tenantId r;
          gs_integrationSettings := int_settings i;
          gs_streamCount :=
            length (List.filter (λ s, String.eqb (stream_runId s) runId)
                      (runStreams w)) |})).
Proof.
  intros Hr Hi.
  unfold IntegrationRunRepository.getGenerateStreamData,
    IntegrationRunRepository.getGenerateStreamDataQuery.
  rewrite Hr. simpl. rewrite Hi. simpl.
  by rewrite (joined_stream_counts_length _ _ _ (filter_eqb_head _ _ _ _ Hr)).
Qed.

(** X9.  For a run that exists with a live integration,
    [getGenerateStreamData] reports as [streamCount] the number of stream
    rows of the run, and every [publishStream] on the run raises that count
    by one and changes nothing else of what is reported. *)
Theorem getGenerateStreamData_counts_published (w : World) (runId : string)
    (stream : IIntegrationStream) (r : Run) (i : Integration) :
  List.filter (λ r, String.eqb (run_id r) runId) (runs w) = [r] →
  List.filter
    (λ i, String.eqb (run_integrationId r) (int_id i)
          && bool_decide (int_deletedAt i = None)) (integrations w) = [i] →
  ∃ w1 id g g1,
    IntegrationRunRepository.getGenerateStreamData runId w
    = (w, Ok (Some g))
    ∧ gs_streamCount g
      = length (List.filter (λ s, String.eqb (stream_runId s) runId)
                  (runStreams w))
    ∧ IntegrationRunRepository.publishStream runId stream w = (w1, Ok id)
    ∧ IntegrationRunRepository.getGenerateStreamData runId w1
      = (w1, Ok (Some g1))
    ∧ gs_streamCount g1 = S (gs_streamCount g)
    ∧ gs_runState g1 = gs_runState g
    ∧ gs_integrationSettings g1 = gs_integrationSettings g
    ∧ gs_integrationType g1 = gs_integrationType g
    ∧ gs_tenantId g1 = gs_tenantId g
    ∧ gs_onboarding g1 = gs_onboarding g.
Proof.
  intros Hr Hi.
  pose proof (publishStream_once w runId stream r Hr) as Hpub.
  set (w1 := set_runStreams _ _) in Hpub.
  eexists w1, _, _, _.
  split; [exact (getGenerateStreamData_one w runId r i Hr Hi)|].
  split; [done|]. split; [exact Hpub|].
  split; [exact (getGenerateStreamData_one w1 runId r i Hr Hi)|].
  simpl. repeat split.
  rewrite List.filter_app, length_app. simpl.
  rewrite String.eqb_refl. simpl. lia.
Qed.

Lemma getGenerateStreamData_counts_published_witness :
  ∃ w1 id g g1,
    IntegrationRunRepository.getGenerateStreamData "run-1" Fixture.world1
    = (Fixture.world1, Ok (Some g))
    ∧ gs_streamCount g
      = length (List.filter (λ s, String.eqb (stream_runId s) "run-1")
                  (runStreams Fixture.world1))
    ∧ IntegrationRunRepository.publishStream "run-1" Fixture.rootStream
        Fixture.world1 = (w1, Ok id)
    ∧ IntegrationRunRepository.getGenerateStreamData "run-1" w1
      = (w1, Ok (Some g1))
    ∧ gs_streamCount g1 = S (gs_streamCount g)
    ∧ gs_runState g1 = gs_runState g
    ∧ gs_integrationSettings g1 = gs_integrationSettings g
    ∧ gs_integrationType g1 = gs_integrationType g
    ∧ gs_tenantId g1 = gs_tenantId g
    ∧ gs_onboarding g1 = gs_onboarding g.
Proof.
  apply (getGenerateStreamData_counts_published Fixture.world1 "run-1"
           Fixture.rootStream Fixture.run1 Fixture.int1);
    reflexivity.
Defined.

(** X10.  [getGenerateStreamData] answers [null] for a run that does not
    exist, and also for a run that exists when every integration with the
    id it names is deleted ([deletedAt] set) or there is none. *)
Theorem getGenerateStreamData_null (w : World) (runId : string) :
  (List.filter (λ r, String.eqb (run_id r) runId) (runs w) = [] →
   IntegrationRunRepository.getGenerateStreamData runId w = (w, Ok None))
  ∧ (∀ r,
       List.filter (λ r, String.eqb (run_id r) runId) (runs w) = [r] →
       Forall (λ i, int_id i = run_integrationId r → int_deletedAt i ≠ None)
         (integrations w) →
       IntegrationRunRepository.getGenerateStreamData runId w
       = (w, Ok None)).
Proof.
  unfold IntegrationRunRepository.getGenerateStreamData,
    IntegrationRunRepository.getGenerateStreamDataQuery.
  split.
  - intros Hr. by rewrite Hr.
  - intros r Hr Hall. rewrite Hr. simpl.
    assert (Hnone : List.filter
              (λ i, String.eqb (run_integrationId r) (int_id i)
                    && bool_decide (int_deletedAt i = None))
              (integrations w) = []).
    { induction Hall as [|i l Hi _ IH]; simpl; [done|].
      destruct (String.eqb_spec (run_integrationId r) (int_id i)) as [Heq|];
        simpl; [|done].
      rewrite bool_decide_eq_false_2; [done|]. by apply Hi. }
    by rewrite Hnone.
Qed.

Lemma getGenerateStreamData_null_witness :
  IntegrationRunRepository.getGenerateStreamData "run-1"
    Scenario.worldDeleted = (Scenario.worldDeleted, Ok None).
Proof.
  apply (proj2 (getGenerateStreamData_null Scenario.worldDeleted "run-1")
           Fixture.run1); [reflexivity|].
  repeat constructor. simpl. discriminate.
Defined.

(** ** The stream service, on any repository *)

Section AnyRepository.

Variable repo : Repo.StreamRepository.
Variable dataSender : Queue.DataWorkerSender.
Variable streamSender : Queue.StreamWorkerSender.
Variable WORKER_SETTINGS : IWorkerSettings.
Variable INTEGRATION_SERVICES : list IIntegrationService.



(** X12.  When the repository fails inside the [updateIntegrationSettings]
    of the context, the service calls [markRunError] with the id of the
    stream where the id of a run is expected and throws.  With the
    [markRunError] of the run repository and no run under that id, no run
    is marked: the state is the one the failure left. *)
Theorem updateIntegrationSettings_failure_marks_stream_id
    (streamId : string) (streamInfo : IStreamData) (settings : Json)
    (w w1 : World) (err : Err) :
  Repo.updateIntegrationSettings repo streamId settings w
  = (w1, Throw err) →
  (∃ w2 marked,
     Repo.markRunError repo streamId
       {| location := "run-stream-update-settings";
          message := "Error while updating settings!";
          metadata := MdError err |} w1 = (w2, marked)
     ∧ IntegrationStreamService.contextCall repo dataSender streamSender
         streamId streamInfo (CallUpdateIntegrationSettings settings) w
       = (w2, Throw match marked with Ok _ => err | Throw e => e end))
  ∧ (Repo.markRunError repo = IntegrationRunRepository.markRunError →
     List.filter (λ r, String.eqb (run_id r) streamId) (runs w1) = [] →
     ∃ e, IntegrationStreamService.contextCall repo dataSender
            streamSender streamId streamInfo
            (CallUpdateIntegrationSettings settings) w
          = (w1, Throw e)).
Proof.
  intros Hfail.
  assert (Hcall : ∀ w2 marked,
            Repo.markRunError repo streamId
              {| location := "run-stream-update-settings";
                 message := "Error while updating settings!";
                 metadata := MdError err |} w1 = (w2, marked) →
            IntegrationStreamService.contextCall repo dataSender
              streamSender streamId streamInfo
              (CallUpdateIntegrationSettings settings) w
            = (w2, Throw match marked with Ok _ => err | Throw e => e end)).
  { intros w2 marked Hmark. simpl.
    unfold IntegrationStreamService.updateIntegrationSettings.
    rewrite (try_catch_throw _ _ _ _ _ Hfail).
    unfold IntegrationStreamService.triggerRunError, bind.
    rewrite Hmark. by destruct marked. }
  split.
  - destruct (Repo.markRunError repo streamId _ w1) as [w2 marked] eqn:Hmark.
    exists w2, marked. split; [done|]. by apply Hcall.
  - intros Hrepo Hnone.
    destruct (markRunError_missing_row w1 streamId
                {| location := "run-stream-update-settings";
                   message := "Error while updating settings!";
                   metadata := MdError err |} Hnone) as (e & He).
    exists e. rewrite <- Hrepo in He. exact (Hcall _ _ He).
Qed.

(** X13.  [processStream] gives up before any handler runs when the
    stream is not found (it then resolves at once) and when the run is in
    PROCESSING but no service is registered for the platform of the
    integration (it then only marks the stream with the location
    [check-stream-int-service]). *)
Theorem processStream_gives_up (streamId : string) (w w0 : World) :
  (Repo.getStreamData repo streamId w = (w0, Ok None) →
   IntegrationStreamService.processStream repo dataSender streamSender
     WORKER_SETTINGS INTEGRATION_SERVICES streamId w = (w0, Ok tt))
  ∧ (∀ streamInfo,
       Repo.getStreamData repo streamId w = (w0, Ok (Some streamInfo)) →
       sd_runState streamInfo = RUN_PROCESSING →
       List.filter
         (λ i, String.eqb (svc_type i) (sd_integrationType streamInfo))
         INTEGRATION_SERVICES = [] →
       IntegrationStreamService.processStream repo dataSender streamSender
         WORKER_SETTINGS INTEGRATION_SERVICES streamId w
       = Repo.markStreamError repo streamId
           {| location := "check-stream-int-service";
              message := "Could not find integration service!";
              metadata := MdType (sd_integrationType streamInfo) |} w0).
Proof.
  unfold IntegrationStreamService.processStream. split.
  - intros Hget. by rewrite (bind_ok _ _ _ _ _ Hget).
  - intros streamInfo Hget Hstate Hnone.
    rewrite (bind_ok _ _ _ _ _ Hget), Hstate. simpl.
    unfold singleOrDefault. rewrite Hnone.
    by rewrite (bind_ok _ _ w0 w0 None).
Qed.

End AnyRepository.


Lemma updateIntegrationSettings_failure_marks_stream_id_witness :
  ∃ e,
    IntegrationStreamService.contextCall IntegrationStreamRepository.repo
      (Queue.dataWorkerSender Fixture.fifoQueue)
      (Queue.streamWorkerSender Fixture.fifoQueue) "stream-1"
      Fixture.streamInfo1
      (CallUpdateIntegrationSettings Fixture.childPayload)
      worldNoIntegration
    = (worldNoIntegration, Throw e).
Proof.
  apply (proj2
           (updateIntegrationSettings_failure_marks_stream_id
              IntegrationStreamRepository.repo
              (Queue.dataWorkerSender Fixture.fifoQueue)
              (Queue.streamWorkerSender Fixture.fifoQueue) "stream-1"
              Fixture.streamInfo1 Fixture.childPayload worldNoIntegration
              worldNoIntegration
              (Error "Updated number of rows not equal to expected number!")
              eq_refl));
    reflexivity.
Defined.

Lemma processStream_gives_up_witness :
  IntegrationStreamService.processStream IntegrationStreamRepository.repo
    (Queue.dataWorkerSender Fixture.fifoQueue)
    (Queue.streamWorkerSender Fixture.fifoQueue) Fixture.workerSettings
    Scenario.devtoServices "stream-1" Fixture.world1
  = Repo.markStreamError IntegrationStreamRepository.repo "stream-1"
      {| location := "check-stream-int-service";
         message := "Could not find integration service!";
         metadata := MdType "linkedin" |} Fixture.world1.
Proof.
  apply (proj2
           (processStream_gives_up IntegrationStreamRepository.repo
              (Queue.dataWorkerSender Fixture.fifoQueue)
              (Queue.streamWorkerSender Fixture.fifoQueue)
              Fixture.workerSettings Scenario.devtoServices "stream-1"
              Fixture.world1 Fixture.world1) Fixture.streamInfo1);
    reflexivity.
Defined.

(** ** The watermarks of the LinkedIn handler *)

Module LinkedinFacts.

Import Linkedin.

Lemma post_with_id_Some (p : Json) (postUrnId : string)
    (m : gmap string Json) :
  post_with_id p postUrnId = Ok (Some m) →
  p = JObject m ∧ m !! "id" = Some (JString postUrnId).
Proof.
  destruct p as [| | | | |m0]; simpl; try done.
  destruct (m0 !! "id") as [[| | |s| |]|] eqn:Hid; try done.
  destruct (String.eqb_spec s postUrnId) as [->|]; [|done].
  by intros [= <-].
Qed.

Lemma post_with_id_updated (m : gmap string Json) (field : string)
    (v : Json) (postUrnId : string) :
  field ≠ "id" →
  post_with_id (JObject (<[field := v]> m)) postUrnId
  = match post_with_id (JObject m) postUrnId with
    | Ok (Some _) => Ok (Some (<[field := v]> m))
    | other => other
    end.
Proof.
  intros Hf. simpl. rewrite lookup_insert_ne by done.
  destruct (m !! "id") as [[| | |s| |]|]; try done.
  by destruct (String.eqb s postUrnId).
Qed.

(** [find] after the assignment to the field of the post it found. *)
Lemma find_post_updated (l : list Json) (postUrnId field : string)
    (v : Json) (i : nat) (m : gmap string Json) :
  field ≠ "id" →
  find_post l postUrnId = Ok (Some (i, m)) →
  find_post (<[i := JObject (<[field := v]> m)]> l) postUrnId
  = Ok (Some (i, <[field := v]> m)).
Proof.
  intros Hf. revert i. induction l as [|p l IH]; intros i; simpl; [done|].
  destruct (post_with_id p postUrnId) as [[m0|]|e] eqn:Hp; [| |done].
  - intros [= <- <-].
    destruct (post_with_id_Some _ _ _ Hp) as [-> Hid]. simpl.
    rewrite lookup_insert_ne by done.
    by rewrite Hid, String.eqb_refl.
  - destruct (find_post l postUrnId) as [[[i0 m0]|]|e] eqn:Hl; try done.
    intros [= <- <-]. simpl. by rewrite Hp, (IH i0).
Qed.

(** [find] for another id: the assignment is not seen. *)
Lemma find_post_updated_other (l : list Json)
    (postUrnId other field : string) (v : Json) (i : nat)
    (m : gmap string Json) :
  field ≠ "id" → other ≠ postUrnId →
  find_post l postUrnId = Ok (Some (i, m)) →
  find_post (<[i := JObject (<[field := v]> m)]> l) other
  = find_post l other.
Proof.
  intros Hf Hne. revert i. induction l as [|p l IH]; intros i; simpl;
    [done|].
  destruct (post_with_id p postUrnId) as [[m0|]|e] eqn:Hp; [| |done].
  - intros [= <- <-].
    destruct (post_with_id_Some _ _ _ Hp) as [-> Hid]. simpl.
    rewrite lookup_insert_ne by done. rewrite Hid.
    destruct (String.eqb_spec postUrnId other) as [Heq|]; [|done].
    by destruct Hne.
  - destruct (find_post l postUrnId) as [[[i0 m0]|]|e] eqn:Hl; try done.
    intros [= <- <-]. simpl. by rewrite (IH i0).
Qed.

(** [find] after [push] of a post that has the id. *)
Lemma find_post_pushed (l : list Json) (postUrnId : string)
    (m : gmap string Json) :
  m !! "id" = Some (JString postUrnId) →
  find_post l postUrnId = Ok None →
  find_post (l ++ [JObject m]) postUrnId = Ok (Some (length l, m)).
Proof.
  intros Hid. induction l as [|p l IH]; simpl.
  - intros _. by rewrite Hid, String.eqb_refl.
  - destruct (post_with_id p postUrnId) as [[m0|]|e]; try done.
    destruct (find_post l postUrnId) as [[[i0 m0]|]|e]; try done.
    intros _. by rewrite IH.
Qed.

Lemma find_post_pushed_other (l : list Json) (postUrnId other : string)
    (m : gmap string Json) :
  m !! "id" = Some (JString postUrnId) → other ≠ postUrnId →
  find_post l other = Ok None ∨ (∃ f, find_post l other = Ok (Some f)) →
  find_post (l ++ [JObject m]) other = find_post l other.
Proof.
  intros Hid Hne. induction l as [|p l IH]; simpl.
  - intros _. rewrite Hid.
    destruct (String.eqb_spec postUrnId other) as [Heq|]; [|done].
    by destruct Hne.
  - destruct (post_with_id p other) as [[m0|]|e]; try done.
    destruct (find_post l other) as [[[i0 m0]|]|e] eqn:Hl.
    + intros _. rewrite IH; [done|]. right. eauto.
    + intros _. rewrite IH; [done|]. by left.
    + intros [H|[f H]]; done.
Qed.

Lemma post_with_id_no_throw (p : Json) (a b : string)
    (x : option (gmap string Json)) :
  post_with_id p a = Ok x → ∃ y, post_with_id p b = Ok y.
Proof.
  destruct p as [| | | | |m]; simpl; try done; eauto.
  intros _. destruct (m !! "id") as [[| | |s| |]|]; eauto.
  destruct (String.eqb s b); eauto.
Qed.

Lemma find_post_null_free (l : list Json) (a b : string) :
  find_post l a = Ok None →
  find_post l b = Ok None ∨ (∃ f, find_post l b = Ok (Some f)).
Proof.
  induction l as [|p l IH]; [by left|].
  cbn [find_post].
  destruct (post_with_id p a) as [[m0|]|e] eqn:Ha; try done.
  destruct (find_post l a) as [[[i0 m0]|]|e] eqn:Hl; try done.
  intros _.
  destruct (post_with_id_no_throw _ _ b _ Ha) as [[m1|] ->];
    [right; eauto|].
  destruct (IH eq_refl) as [-> |[[i1 m1] ->]]; [by left|right; eauto].
Qed.

Section Watermarks.

Variable field : string.
Hypothesis field_is_watermark :
  field = "lastReactionTs" ∨ field = "lastCommentTs".

Variable ctx : IProcessStreamContext.
Variable settings : gmap string Json.
Hypothesis ctx_settings :
  integration_settings (integration ctx) = Some (JObject settings).

Variable postUrnId : string.
Variable ts : Z.
Variable k : IProcessStreamContext → Handler.

Lemma field_not_id : field ≠ "id".
Proof. by destruct field_is_watermark as [-> | ->]. Qed.

Lemma settings_value_ctx : settings_value ctx = JObject settings.
Proof. unfold settings_value. by rewrite ctx_settings. Qed.

(** X14.  When the settings hold an array of posts, the handler reads
    back what [setLastReactionTs] (or [setLastCommentTs]) wrote: in the
    context it goes on with, the watermark of the post is [ts].  When
    the settings hold no [posts], the partial that is sent has the new
    post, and the context is unchanged: it still answers
    [undefined]. *)
Theorem setLastTs_read_back :
  (∀ posts found,
     settings !! "posts" = Some (JArray posts) →
     find_post posts postUrnId = Ok found →
     ∃ partial ctx',
       setLastTs field ctx postUrnId ts k
       = Await (CallUpdateIntegrationSettings partial)
           (λ r, match r with
                 | Ok _ => k ctx'
                 | Throw e => Raise e
                 end)
       ∧ getLastTs field ctx' postUrnId = Ok (Some (JNumber ts)))
  ∧ (settings !! "posts" = None →
     ∃ posts',
       setLastTs field ctx postUrnId ts k
       = Await (CallUpdateIntegrationSettings
                  (JObject (<["posts" := JArray posts']> settings)))
           (λ r, match r with
                 | Ok _ => k ctx
                 | Throw e => Raise e
                 end)
       ∧ find_post posts' postUrnId
         = Ok (Some (0%nat, <["id" := JString postUrnId]>
                              (<[field := JNumber ts]> ∅)))
       ∧ getLastTs field ctx postUrnId = Ok None).
Proof.
  pose proof field_not_id as Hf. split.
  - intros posts found Hposts Hfind.
    unfold setLastTs, getLastTs. rewrite settings_value_ctx.
    unfold posts_of. simpl. rewrite Hposts. simpl. rewrite Hfind.
    eexists _, _. split; [reflexivity|].
    unfold settings_value, with_settings, settings_with_posts. simpl.
    rewrite lookup_insert_eq. simpl.
    destruct found as [[i m]|]; simpl.
    + rewrite (find_post_updated _ _ _ _ _ _ Hf Hfind).
      by rewrite lookup_insert_eq.
    + rewrite (find_post_pushed _ _ _ (lookup_insert_eq _ _ _) Hfind).
      rewrite lookup_insert_ne by done. by rewrite lookup_insert_eq.
  - intros Hnone.
    unfold setLastTs, getLastTs. rewrite settings_value_ctx.
    unfold posts_of. simpl. rewrite Hnone. simpl.
    eexists. split; [reflexivity|]. simpl.
    rewrite lookup_insert_eq, String.eqb_refl. done.
Qed.

(** X15.  [setLastReactionTs] touches one field of one post: in the
    context the handler goes on with, the watermarks of every other
    post are what they were, and so is the other watermark of the same
    post; the array has one post more exactly when the id was not
    there. *)
Theorem setLastTs_touches_one_field (posts : list Json)
    (found : option (nat * gmap string Json)) :
  settings !! "posts" = Some (JArray posts) →
  find_post posts postUrnId = Ok found →
  ∃ partial ctx' posts',
    setLastTs field ctx postUrnId ts k
    = Await (CallUpdateIntegrationSettings partial)
        (λ r, match r with
              | Ok _ => k ctx'
              | Throw e => Raise e
              end)
    ∧ integration_settings (integration ctx')
      = Some (JObject (<["posts" := JArray posts']> settings))
    ∧ length posts'
      = (length posts
         + match found with Some _ => 0 | None => 1 end)%nat
    ∧ (∀ other field',
         other ≠ postUrnId →
         getLastTs field' ctx' other = getLastTs field' ctx other)
    ∧ (∀ field',
         field' = "lastReactionTs" ∨ field' = "lastCommentTs" →
         field' ≠ field →
         getLastTs field' ctx' postUrnId
         = getLastTs field' ctx postUrnId).
Proof.
  pose proof field_not_id as Hf. intros Hposts Hfind.
  unfold setLastTs. rewrite settings_value_ctx.
  unfold posts_of. simpl. rewrite Hposts. simpl. rewrite Hfind.
  eexists _, _, _. split; [reflexivity|].
  split; [reflexivity|]. split; [|split].
  - destruct found as [[i m]|]; simpl.
    + rewrite length_insert. lia.
    + rewrite length_app. simpl. lia.
  - intros other field' Hother.
    unfold getLastTs, settings_value, with_settings, settings_with_posts.
    simpl. rewrite ctx_settings. unfold posts_of. simpl.
    rewrite lookup_insert_eq, Hposts. simpl.
    destruct found as [[i m]|]; simpl.
    + by rewrite (find_post_updated_other _ _ _ _ _ _ _ Hf Hother Hfind).
    + rewrite (find_post_pushed_other _ postUrnId other); try done.
      * apply lookup_insert_eq.
      * by apply (find_post_null_free _ postUrnId).
  - intros field' Hw Hne.
    assert (Hid : field' ≠ "id") by (by destruct Hw as [-> | ->]).
    unfold getLastTs, settings_value, with_settings, settings_with_posts.
    simpl. rewrite ctx_settings. unfold posts_of. simpl.
    rewrite lookup_insert_eq, Hposts. simpl. rewrite Hfind.
    destruct found as [[i m]|]; simpl.
    + rewrite (find_post_updated _ _ _ _ _ _ Hf Hfind).
      by rewrite lookup_insert_ne.
    + rewrite (find_post_pushed _ _ _ (lookup_insert_eq _ _ _) Hfind).
      rewrite !lookup_insert_ne by done. done.
Qed.

(** X16.  The partial that [setLastReactionTs] sends is the whole of the
    settings that the handler was given, with [posts] replaced.  So the
    merge of the run repository writes back every key of that snapshot
    with the value of the snapshot, whatever the stored settings hold by
    then; only keys that the snapshot does not have keep what is
    stored. *)
Theorem setLastTs_sends_whole_snapshot (partial : Json)
    (k' : Result unit → Handler) :
  setLastTs field ctx postUrnId ts k
  = Await (CallUpdateIntegrationSettings partial) k' →
  ∃ sent,
    partial = JObject sent
    ∧ is_Some (sent !! "posts")
    ∧ (∀ key, key ≠ "posts" → sent !! key = settings !! key)
    ∧ ∀ (stored : gmap string Json) (i : Integration) (now : Z),
        int_settings i = Some (JObject stored) →
        ∃ merged,
          int_settings
            (IntegrationRunRepository.set_int_settings partial now i)
          = Some (JObject merged)
          ∧ merged !! "posts" = sent !! "posts"
          ∧ (∀ key v, key ≠ "posts" → settings !! key = Some v →
                      merged !! key = Some v)
          ∧ (∀ key, key ≠ "posts" → settings !! key = None →
                    merged !! key = stored !! key).
Proof.
  unfold setLastTs. rewrite settings_value_ctx.
  destruct (posts_of (JObject settings)) as [[own posts]|e]; [|done].
  destruct (find_post posts postUrnId) as [found|e]; [|done].
  intros [= <- _]. unfold settings_with_posts. simpl.
  eexists. split; [reflexivity|].
  split; [by rewrite lookup_insert_eq|].
  split; [intros key Hkey; by rewrite lookup_insert_ne|].
  intros stored i now Hstored. simpl. rewrite Hstored. simpl.
  eexists. split; [reflexivity|]. split; [|split].
  - rewrite lookup_insert_eq. apply lookup_union_Some_l.
    apply lookup_insert_eq.
  - intros key v Hkey Hv. apply lookup_union_Some_l.
    by rewrite lookup_insert_ne.
  - intros key Hkey Hv. rewrite lookup_union_r; [done|].
    by rewrite lookup_insert_ne.
Qed.

End Watermarks.

Lemma setLastTs_read_back_witness :
  ∃ partial ctx',
    setLastReactionTs Scenario.linkedinContext "urn:li:share:2" 200
      (λ _, Return)
    = Await (CallUpdateIntegrationSettings partial)
        (λ r, match r with
              | Ok _ => (λ _, Return) ctx'
              | Throw e => Raise e
              end)
    ∧ getLastReactionTs ctx' "urn:li:share:2" = Ok (Some (JNumber 200)).
Proof.
  apply (proj1
           (setLastTs_read_back "lastReactionTs" (or_introl eq_refl)
              Scenario.linkedinContext Scenario.linkedinSettings eq_refl
              "urn:li:share:2" 200 (λ _, Return))
           [JObject Scenario.post1; JObject Scenario.post2]
           (Some (1%nat, Scenario.post2)));
    reflexivity.
Defined.

Lemma setLastTs_touches_one_field_witness :
  ∃ partial ctx' posts',
    setLastCommentTs Scenario.linkedinContext "urn:li:share:3" 200
      (λ _, Return)
    = Await (CallUpdateIntegrationSettings partial)
        (λ r, match r with
              | Ok _ => (λ _, Return) ctx'
              | Throw e => Raise e
              end)
    ∧ integration_settings (integration ctx')
      = Some (JObject (<["posts" := JArray posts']>
                         Scenario.linkedinSettings))
    ∧ length posts' = 3%nat
    ∧ (∀ other field',
         other ≠ "urn:li:share:3" →
         getLastTs field' ctx' other
         = getLastTs field' Scenario.linkedinContext other)
    ∧ (∀ field',
         field' = "lastReactionTs" ∨ field' = "lastCommentTs" →
         field' ≠ "lastCommentTs" →
         getLastTs field' ctx' "urn:li:share:3"
         = getLastTs field' Scenario.linkedinContext "urn:li:share:3").
Proof.
  apply (setLastTs_touches_one_field "lastCommentTs" (or_intror eq_refl)
           Scenario.linkedinContext Scenario.linkedinSettings eq_refl
           "urn:li:share:3" 200 (λ _, Return)
           [JObject Scenario.post1; JObject Scenario.post2] None);
    reflexivity.
Defined.

Lemma setLastTs_sends_whole_snapshot_witness :
  ∃ partial k',
    setLastReactionTs Scenario.linkedinContext "urn:li:share:1" 200
      (λ _, Return)
    = Await (CallUpdateIntegrationSettings partial) k'
    ∧ ∃ sent,
        partial = JObject sent
        ∧ is_Some (sent !! "posts")
        ∧ (∀ key, key ≠ "posts" →
                  sent !! key = Scenario.linkedinSettings !! key)
        ∧ ∀ (stored : gmap string Json) (i : Integration) (now : Z),
            int_settings i = Some (JObject stored) →
            ∃ merged,
              int_settings
                (IntegrationRunRepository.set_int_settings partial now i)
              = Some (JObject merged)
              ∧ merged !! "posts" = sent !! "posts"
              ∧ (∀ key v, key ≠ "posts" →
                          Scenario.linkedinSettings !! key = Some v →
                          merged !! key = Some v)
              ∧ (∀ key, key ≠ "posts" →
                        Scenario.linkedinSettings !! key = None →
                        merged !! key = stored !! key).
Proof.
  eexists _, _. split; [reflexivity|].
  eapply (setLastTs_sends_whole_snapshot "lastReactionTs"
             Scenario.linkedinContext Scenario.linkedinSettings eq_refl
            "urn:li:share:1" 200 (λ _, Return)).
  reflexivity.
Defined.

End LinkedinFacts.
